(** * genens: the OpenML benchmark harness (tests/run_openml.py) and the
      evolution plot (genens/render/plot.py)

    A shallow embedding of the harness.  Python integers are [Z] (indices
    produced by [enumerate] are [nat]), floats are the kernel's binary64
    floats, strings are [string].  The harness is effectful: it creates
    directories, writes files, prints, reads the clock and calls OpenML,
    scikit-learn and the evolutionary classifier.  All of this is threaded
    through one state and an exception monad [M]. *)

From Stdlib Require Import ZArith Ascii Floats.PrimFloat.
From stdpp Require Import gmap strings list sorting pretty.

Set Warnings "-inexact-float".
Local Open Scope Z_scope.

(** ** Python exceptions and outcomes *)

Inductive exn :=
| TimeoutException            (* stopit.TimeoutException *)
| FileExistsError             (* subclass of OSError *)
| FileNotFoundError           (* subclass of OSError *)
| OtherError (name : string). (* any exception raised by a collaborator *)

Global Instance exn_eq_dec : EqDecision exn.
Proof. solve_decision. Defined.

Definition is_OSError (e : exn) : bool :=
  match e with
  | FileExistsError | FileNotFoundError => true
  | TimeoutException | OtherError _ => false
  end.

Inductive outcome (A : Type) :=
| Ok (a : A)
| Raise (e : exn).
Arguments Ok {A} a.
Arguments Raise {A} e.

(** ** Values exchanged with the collaborators *)

(** Only the shape of a feature matrix is observed by the harness. *)
Record matrix := Matrix { shape0 : Z; shape1 : Z }.

Inductive strategy := Mean | Median.

(** [SimpleImputer(strategy=...)] *)
Record SimpleImputer := { imputer_strategy : strategy }.

(** [ColumnTransformer(transformers=[(name, transformer, columns), ...])] *)
Record ColumnTransformer :=
  { transformers : list (string * SimpleImputer * list nat) }.

(** A candidate produced by the search, or the two-step
    [Pipeline(steps=[('Preprocessing', preprocessing), ('Pipeline', pipe)])]
    built by [evaluate_pipeline]. *)
Inductive pipeline :=
| Candidate (id : nat)
| Pipeline (preprocessing : ColumnTransformer) (pipe : pipeline).

Record individual :=
  { ind_pipeline : pipeline; fitness_values : list float }.

(** The value of [select(...)] on the logbook or on one of its chapters.
    Modelled from the spec: the evolution history of the Evolver, which is
    not among the sources: "generation-indexed chapters, each chapter
    supporting selection of named statistic columns".  The calls
    [export_plot] makes, [logbook.select] and [logbook.chapters[...].select],
    are those of deap's [Logbook], whose [select] returns a Python list with
    one entry per generation; a numpy array of the same samples is modelled
    as well. *)
Inductive column :=
| PyList (entries : list float)
| NdArray (entries : list float).

Definition samples (c : column) : list float :=
  match c with PyList xs | NdArray xs => xs end.

(** The columns of the logbook read by [export_plot]. *)
Record logbook := {
  lb_gen : list Z;           (* logbook.select("gen") *)
  lb_score_max : column;     (* chapters["score"].select("max") *)
  lb_score_avg : column;     (* chapters["score"].select("avg") *)
  lb_test_max : column;      (* chapters["test_score"].select("max") *)
  lb_test_avg : column;      (* chapters["test_score"].select("avg") *)
  lb_str : string            (* logbook.__str__() *)
}.

(** [SampleCrossValEvaluator(cv_k, timeout_s, per_gen, sample_size)] *)
Record SampleCrossValEvaluator := {
  cv_k : Z; timeout_s : option Z; per_gen : bool; sample_size : float }.

(** [GenensClassifier(n_jobs, timeout, evaluator, max_height)] before the fit. *)
Record GenensClassifier := {
  n_jobs : Z; timeout : option Z;
  evaluator : SampleCrossValEvaluator; max_height : Z }.

(** Modelled from the spec: the fitted Evolver (genens.GenensClassifier is
    not among the sources).  It "exposes a read-only evolution history" and
    "retrieval of the top-N ranked candidates either as raw pipeline objects
    or as wrapped individuals carrying a fitness value". *)
Record fitted := { fitted_logbook : logbook; ranked : list individual }.

(** [get_best_pipelines(as_individuals=True)] and [get_best_pipelines()] *)
Definition get_best_individuals (clf : fitted) : list individual := ranked clf.
Definition get_best_pipelines (clf : fitted) : list pipeline :=
  map ind_pipeline (ranked clf).

(** The run returned by [openml.runs.run_model_on_task]; its accuracy per
    fold is what [run.get_metric_fn(accuracy_score)] gives. *)
Record run := { run_accuracy : list float }.

(** An OpenML task together with what the outside world answers for it:
    every field is the result of one call the harness makes, with the time
    the call takes on the wall clock. *)
Record task := {
  task_id : Z;
  dataset_name : string;                        (* task.get_dataset().name *)
  get_data : outcome (matrix * list bool);      (* X and the categorical mask *)
  load_time : Z;
  fit_transform : ColumnTransformer → outcome matrix;
  impute_time : Z;
  clf_fit : GenensClassifier → matrix → outcome fitted;
  fit_time : Z;           (* how long clf.fit runs when nothing interrupts it *)
  run_model_on_task : pipeline → outcome run;
  eval_time : Z
}.

Record world := {
  suite_tasks : list Z;       (* get_study('OpenML-CC18', 'tasks').tasks *)
  get_task : Z → task;        (* openml.tasks.get_task *)
  HIGHEST_PROTOCOL : Z        (* pickle.HIGHEST_PROTOCOL *)
}.

(** ** Plots *)

Record Line2D := { xdata : list Z; ydata : list float; label : string }.

Record Axes := {
  xlabel : string; ylabel : string;
  ax_lines : list Line2D;                    (* what has been drawn *)
  ax_legend : list (Line2D * string)         (* handles and labels *)
}.

(** ** Files *)

Inductive line :=
| ElapsedTimeLine (elapsed : Z)                (* 'Elapsed time: {}\n' *)
| LogbookLine (s : string)                     (* logbook text + '\n' *)
| FitnessLine (i : nat) (values : list float)  (* 'Individual {}: Score {}\n' *)
| ScoreLine (score : list float).              (* '{}\n' *)

Inductive artifact :=
| Text (lines : list line)
| Png (ax : Axes)                              (* plt.savefig *)
| GraphPng (ind : individual)                  (* create_graph *)
| Pickled (obj : pipeline) (protocol : Z).     (* pickle.dump *)

(** ** Calls to the collaborators, in the order they are made *)

Inductive call :=
| CGetStudy (name kind : string)
| CGetTask (id : Z)
| CGetDataset (id : Z)
| CGetData (id : Z)
| CFitTransform (id : Z) (imputer : ColumnTransformer)
| CFit (id : Z) (dataset : string) (clf : GenensClassifier)
| CRunModel (id : Z) (pipe : pipeline)
| CToFilesystem (directory : string).

(** ** The state of the process and of the file system *)

Record state := State {
  dirs : gset string;
  files : gmap string artifact;
  clock : Z;
  stdout : list string;
  calls : list call
}.

Definition M (A : Type) : Type := state → outcome A * state.

Global Instance M_ret : MRet M := λ A a st, (Ok a, st).
Global Instance M_bind : MBind M := λ A B f m st,
  match m st with
  | (Ok a, st') => f a st'
  | (Raise e, st') => (Raise e, st')
  end.

Definition raise {A} (e : exn) : M A := λ st, (Raise e, st).

(** [try: body except ...: handler]; [handler e = None] when no clause
    matches [e]. *)
Definition try_except {A} (body : M A) (handler : exn → option (M A)) : M A :=
  λ st, match body st with
        | (Ok a, st') => (Ok a, st')
        | (Raise e, st') =>
            match handler e with
            | Some h => h st'
            | None => (Raise e, st')
            end
        end.

(** [for x in l: body] *)
Fixpoint for_each {A} (l : list A) (body : A → M unit) : M unit :=
  match l with
  | [] => mret ()
  | x :: l' => body x ;; for_each l' body
  end.

(** [enumerate(l)] *)
Definition enumerate {A} (l : list A) : list (nat * A) := imap pair l.

Definition print (s : string) : M unit := λ st,
  (Ok (), State (dirs st) (files st) (clock st) (stdout st ++ [s]) (calls st)).

Definition record_call (c : call) : M unit := λ st,
  (Ok (), State (dirs st) (files st) (clock st) (stdout st) (calls st ++ [c])).

(** [time.time()] *)
Definition time_time : M Z := λ st, (Ok (clock st), st).

Definition elapse (d : Z) : M unit := λ st,
  (Ok (), State (dirs st) (files st) (clock st + d) (stdout st) (calls st)).

(** A call to a collaborator: it is recorded, takes [d] on the clock and
    returns or raises. *)
Definition external {A} (c : call) (d : Z) (r : outcome A) : M A :=
  record_call c ;; elapse d ;; λ st, (r, st).

(** *** Paths

    Paths are the strings the harness builds, compared literally.  The
    directory of a path is what precedes its last slash; a path without a
    slash lives in the working directory, and the root and the working
    directory always exist. *)
Fixpoint dirname (p : string) : option string :=
  match p with
  | EmptyString => None
  | String c r =>
      match dirname r with
      | Some d => Some (String c d)
      | None => if decide (c = "/"%char) then Some EmptyString else None
      end
  end.

Definition parent_exists (ds : gset string) (p : string) : bool :=
  match dirname p with
  | None | Some EmptyString => true
  | Some d => bool_decide (d ∈ ds)
  end.

(** [os.mkdir(path)] *)
Definition os_mkdir (path : string) : M unit := λ st,
  if bool_decide (path ∈ dirs st) || bool_decide (is_Some (files st !! path))
  then (Raise FileExistsError, st)
  else if parent_exists (dirs st) path
  then (Ok (), State ({[path]} ∪ dirs st) (files st) (clock st) (stdout st) (calls st))
  else (Raise FileNotFoundError, st).

(** Creating or replacing the file at [path], as [open(path, 'w+')],
    [open(path, 'wb')] and [plt.savefig(path)] do. *)
Definition create_file (path : string) (a : artifact) : M unit := λ st,
  if parent_exists (dirs st) path
  then (Ok (), State (dirs st) (<[path := a]> (files st)) (clock st) (stdout st) (calls st))
  else (Raise FileNotFoundError, st).

Definition open_w (path : string) : M unit := create_file path (Text []).

(** [file.write(...)] on the text file opened at [path] *)
Definition file_write (path : string) (l : line) : M unit := λ st,
  let old := match files st !! path with Some (Text ls) => ls | _ => [] end in
  (Ok (), State (dirs st) (<[path := Text (old ++ [l])]> (files st))
                (clock st) (stdout st) (calls st)).

(** [pickle.dump(obj, file, protocol)] on the binary file opened at [path] *)
Definition pickle_dump (obj : pipeline) (path : string) (protocol : Z) : M unit := λ st,
  (Ok (), State (dirs st) (<[path := Pickled obj protocol]> (files st))
                (clock st) (stdout st) (calls st)).

(** ** genens/render/plot.py *)

(** What [column == v] evaluates to for a float [v].  On a numpy array the
    comparison is made sample by sample and gives an array of booleans.  A
    Python list is not a float: [list.__eq__] and [float.__eq__] both
    decline and the comparison gives the single boolean False. *)
Inductive comparison :=
| PyBool (b : bool)
| BoolArray (bs : list bool).

Definition column_eq (c : column) (v : float) : comparison :=
  match c with
  | PyList _ => PyBool false
  | NdArray a => BoolArray (map (λ x, PrimFloat.eqb x v) a)
  end.

(** [np.all]: of a single boolean, that boolean; of an array, whether every
    entry holds. *)
Definition np_all (x : comparison) : bool :=
  match x with
  | PyBool b => b
  | BoolArray bs => forallb id bs
  end.

(** [ax.plot(x, y, label=...)] draws one line and returns it in a list. *)
Definition ax_plot (ax : Axes) (x : list Z) (y : column) (lbl : string)
  : Axes * list Line2D :=
  let l := {| xdata := x; ydata := samples y; label := lbl |} in
  ({| xlabel := xlabel ax; ylabel := ylabel ax;
      ax_lines := ax_lines ax ++ [l]; ax_legend := ax_legend ax |}, [l]).

Definition ax_legend_set (ax : Axes) (ls : list Line2D) (labels : list string) : Axes :=
  {| xlabel := xlabel ax; ylabel := ylabel ax;
     ax_lines := ax_lines ax; ax_legend := zip ls labels |}.

(** Lines 9-38 of [export_plot]: the figure that is saved ([sns.set()] and
    [plt.close()] only change the plotting library's own state and are left
    out). *)
Definition export_plot_axes (estimator : fitted) : Axes :=
  let lb := fitted_logbook estimator in
  let gen := lb_gen lb in
  let score_max := lb_score_max lb in
  let score_avg := lb_score_avg lb in
  let test_max := lb_test_max lb in
  let test_avg := lb_test_avg lb in
  let test_all_zero :=
    np_all (column_eq test_max 0.0%float) && np_all (column_eq test_avg 0.0%float) in
  let ax1 := {| xlabel := "Generation"; ylabel := "Score";
                ax_lines := []; ax_legend := [] |} in
  let '(ax1, line1) := ax_plot ax1 gen score_max "Maximum Score" in
  let '(ax1, line2) := ax_plot ax1 gen score_avg "Average Score" in
  let '(ax1, lines) :=
    if test_all_zero then (ax1, line1 ++ line2)
    else
      let '(ax1, line3) := ax_plot ax1 gen test_max "Maximum Test score" in
      let '(ax1, line4) := ax_plot ax1 gen test_avg "Average Test score" in
      (ax1, line1 ++ line2 ++ line3 ++ line4) in
  let labels := map label lines in
  ax_legend_set ax1 lines labels.

Definition export_plot (estimator : fitted) (out_file : string) : M unit :=
  create_file out_file (Png (export_plot_axes estimator)).

(** Modelled from the spec: [create_graph] of genens.render.graph, which is
    not among the sources: "a rendered structural diagram of the candidate",
    the file [graph{i}.png] of the output layout. *)
Definition create_graph (ind : individual) (out_file : string) : M unit :=
  create_file out_file (GraphPng ind).

(** ** tests/run_openml.py *)

Definition evaluate_pipeline (pipe : pipeline) (t : task) (out_dir : string)
    (preprocessing : option ColumnTransformer) : M unit :=
  let pipe := match preprocessing with
              | Some pre => Pipeline pre pipe
              | None => pipe
              end in
  r ← external (CRunModel (task_id t) pipe) (eval_time t) (run_model_on_task t pipe);
  (* Store run offline *)
  record_call (CToFilesystem out_dir) ;;
  let score := run_accuracy r in
  open_w (out_dir +:+ "/accuracy-score.txt") ;;
  file_write (out_dir +:+ "/accuracy-score.txt") (ScoreLine score).

(** The newline of ['\nCannot create test directory.'] *)
Definition nl : string := String "010"%char EmptyString.

(** [return True] follows the [try] statement in the source; it is reached
    exactly when [os.mkdir] returned. *)
Definition _create_dir_check (out_dir : string) : M bool :=
  try_except (os_mkdir out_dir ;; mret true)
    (λ e, match e with
          | FileExistsError =>
              (* skip test *)
              Some (print ("Test directory " +:+ out_dir +:+ " already exists.") ;;
                    mret false)
          | _ =>
              if is_OSError e
              then Some (print (nl +:+ "Cannot create test directory.") ;; raise e)
              else None
          end).

Definition _log_evolution (w : world) (fitted_clf : fitted) (out_dir : string) : M unit :=
  (* write logbook string representation to output dir *)
  open_w (out_dir +:+ "/logbook.txt") ;;
  file_write (out_dir +:+ "/logbook.txt") (LogbookLine (lb_str (fitted_logbook fitted_clf))) ;;
  (* evolution plot *)
  export_plot fitted_clf (out_dir +:+ "/result.png") ;;
  (* top 5 individual fitness values *)
  open_w (out_dir +:+ "/ind-fitness.txt") ;;
  for_each (enumerate (take 5 (get_best_individuals fitted_clf)))
    (λ '(i, ind),
       file_write (out_dir +:+ "/ind-fitness.txt") (FitnessLine i (fitness_values ind)) ;;
       (* individual tree *)
       create_graph ind (out_dir +:+ "/graph" +:+ pretty i +:+ ".png")) ;;
  (* pickle top 5 best pipelines *)
  for_each (enumerate (take 5 (get_best_pipelines fitted_clf)))
    (λ '(i, pipe),
       open_w (out_dir +:+ "/pipeline" +:+ pretty i +:+ ".pickle") ;;
       pickle_dump pipe (out_dir +:+ "/pipeline" +:+ pretty i +:+ ".pickle")
                   (HIGHEST_PROTOCOL w)).

Definition _heuristic_sample_size (n_rows n_cols : Z) : float :=
  let size := n_rows * n_cols in
  (* 'small' datasets *)
  if size <? 10000 then 1.0%float
  else if n_rows <? 1000 then 0.5%float
  else if n_rows <? 5000 then 0.25%float
  else if n_rows <? 10000 then 0.1%float
  else if n_rows <? 20000 then 0.05%float
  else if n_cols <? 10 then 0.02%float
  else 0.01%float.

Definition _conditional_imput (X : matrix) (categorical : list bool) : ColumnTransformer :=
  let categorical_id :=
    omap (λ '(i, val), if val : bool then Some i else None) (enumerate categorical) in
  let numerical_id :=
    omap (λ '(i, val), if negb val then Some i else None) (enumerate categorical) in
  let imputer :=
    {| transformers :=
         [ ("mean_imputer", {| imputer_strategy := Mean |}, numerical_id);
           ("median_imputer", {| imputer_strategy := Median |}, categorical_id) ] |} in
  imputer.

(** [with Timeout(seconds, swallow_exc=False): <one call>]: the call is
    started; when a deadline is set and the call is still running when it
    expires, the block is left with [TimeoutException]; otherwise whatever
    the call returns or raises leaves the block unchanged. *)
Definition with_Timeout {A} (seconds : option Z) (c : call) (d : Z) (r : outcome A) : M A :=
  match seconds with
  | Some s => if s <? d then external c s (Raise TimeoutException)
              else external c d r
  | None => external c d r
  end.

Definition run_task (w : world) (t : task) (out_dir : string)
    (n_jobs : Z) (timeout task_timeout : option Z) : M unit :=
  record_call (CGetDataset (task_id t)) ;;
  '(X, categorical) ← external (CGetData (task_id t)) (load_time t) (get_data t);
  let imputer := _conditional_imput X categorical in
  X ← external (CFitTransform (task_id t) imputer) (impute_time t) (fit_transform t imputer);
  let sample_size := _heuristic_sample_size (shape0 X) (shape1 X) in
  let evaluator := {| cv_k := 5; timeout_s := timeout; per_gen := false;
                      sample_size := sample_size |} in
  (* TODO bad practice warning - hardcoded height *)
  let clf := {| n_jobs := n_jobs; timeout := timeout; evaluator := evaluator;
                max_height := 8 |} in
  start_time ← time_time;
  fit_result ← try_except
    (fitted_clf ← with_Timeout task_timeout (CFit (task_id t) (dataset_name t) clf)
                               (fit_time t) (clf_fit t clf X);
     mret (Some fitted_clf))
    (λ e, match e with
          | TimeoutException =>
              Some (print ("Timeout - task " +:+ pretty (task_id t) +:+
                           " on dataset " +:+ dataset_name t) ;;
                    mret None)
          | _ => None
          end);
  match fit_result with
  | None => mret ()                       (* return *)
  | Some clf =>
      now ← time_time;
      let elapsed_time := now - start_time in
      (* log time *)
      open_w (out_dir +:+ "/time.txt") ;;
      file_write (out_dir +:+ "/time.txt") (ElapsedTimeLine elapsed_time) ;;
      _log_evolution w clf out_dir ;;
      (* run and log top 5 pipelines *)
      for_each (enumerate (take 5 (get_best_pipelines clf)))
        (λ '(i, pipe),
           let pipe_dir := out_dir +:+ "/run" +:+ pretty i in
           _create_dir_check pipe_dir ;;
           evaluate_pipeline pipe t pipe_dir (Some imputer))
  end.

(** The body of the loop of [run_tests] for one task identifier;
    [continue] is the early [mret ()]. *)
Definition run_tests_task (w : world) (task_ids : option (list Z)) (out_dir : string)
    (n_jobs : Z) (timeout task_timeout : option Z) (tid : Z) : M unit :=
  (* skip other ids *)
  if match task_ids with
     | Some ids => negb (bool_decide (tid ∈ ids))
     | None => false
     end
  then mret ()
  else
    t ← external (CGetTask tid) 0 (Ok (get_task w tid));
    record_call (CGetDataset (task_id t)) ;;
    (* create output directory or skip the task if it exists *)
    let dataset_dir := "/" +:+ dataset_name t in
    created ← _create_dir_check dataset_dir;
    if negb created then mret ()
    else run_task w t (out_dir +:+ dataset_dir) n_jobs timeout task_timeout.

Definition run_tests (w : world) (task_ids : option (list Z)) (out_dir : string)
    (n_jobs : Z) (timeout task_timeout : option Z) : M unit :=
  record_call (CGetStudy "OpenML-CC18" "tasks") ;;
  for_each (suite_tasks w)
    (run_tests_task w task_ids out_dir n_jobs timeout task_timeout).

(** ** tests/datasets/load_datasets.py

    The loaders only pass data between pandas and scikit-learn.  A value is
    the expression that computes it, with the library calls as
    constructors, so that where each returned value comes from can be read
    off the result. *)

Inductive sklearn_loader := load_iris | load_digits | load_wine | load_breast_cancer.

(** The positions of the list [train_test_split(data, target, ...)] returns. *)
Inductive split_part := X_train | X_test | y_train | y_test.

Inductive frame :=
| read_csv (filename : string)                 (* pd.read_csv(filename, sep=',') *)
| shuffle (data : frame) (random_state : Z)    (* sklearn.utils.shuffle *)
| columns_from_1 (data : frame)                (* data[data.columns[1:]] *)
| column_0 (data : frame)                      (* data[data.columns[0]] *)
| label_encoded (y : frame)    (* pd.Series(LabelEncoder().fit_transform(y), index=y.index) *)
| sklearn_data (f : sklearn_loader)            (* load_func(return_X_y=True)[0] *)
| sklearn_target (f : sklearn_loader)          (* load_func(return_X_y=True)[1] *)
| train_test_split (part : split_part) (data target : frame)
                   (test_size : float) (random_state : Z).

Definition ValueError : exn := OtherError "ValueError".

(** [pd.read_csv] of a file of the working directory, whose files are
    [cwd]. *)
Definition pd_read_csv (cwd : gset string) (filename : string) : outcome frame :=
  if bool_decide (filename ∈ cwd) then Ok (read_csv filename)
  else Raise FileNotFoundError.

Definition load_wilt (cwd : gset string) (random_state : Z)
  : outcome (frame * frame * frame * frame) :=
  let filename := "wilt-train.csv" in
  match pd_read_csv cwd filename with
  | Raise e => Raise e
  | Ok data =>
      let data := shuffle data random_state in
      let train_X := columns_from_1 data in
      let train_y := column_0 data in
      let train_y := label_encoded train_y in
      let test_filename := "wilt-test.csv" in
      match pd_read_csv cwd test_filename with
      | Raise e => Raise e
      | Ok data =>
          let test_X := columns_from_1 data in
          let test_y := column_0 data in
          let test_y := label_encoded test_y in
          Ok (train_X, train_y, test_X, test_y)
      end
  end.

Definition load_from_sklearn (load_func : sklearn_loader) (random_state : Z)
  : outcome (frame * frame * frame * frame) :=
  let data := sklearn_data load_func in
  let target := sklearn_target load_func in
  let split part := train_test_split part data target 0.33%float random_state in
  let '(train_X, test_X, train_y, test_y) :=
    (split X_train, split X_test, split y_train, split y_test) in
  Ok (train_X, test_X, train_y, test_y).

(** The dictionary [load_functions]; each value awaits [random_state]. *)
Definition load_functions (cwd : gset string)
  : gmap string (Z → outcome (frame * frame * frame * frame)) :=
  {[ "iris" := load_from_sklearn load_iris;
     "digits" := load_from_sklearn load_digits;
     "wine" := load_from_sklearn load_wine;
     "breast_cancer" := load_from_sklearn load_breast_cancer;
     "wilt" := load_wilt cwd ]}.

(** [random_state] defaults to 42 in the source. *)
Definition load_dataset (cwd : gset string) (dataset_name : string) (random_state : Z)
  : outcome (frame * frame * frame * frame) :=
  match load_functions cwd !! dataset_name with
  | Some load =>
      match load random_state with
      | Ok (train_X, test_X, train_y, test_y) => Ok (train_X, train_y, test_X, test_y)
      | Raise e => Raise e
      end
  | None => Raise ValueError
  end.

(** * The vocabulary of the statements *)

(** ** The policy, the plot and the selector *)

Definition sample_fractions : list float :=
  [1.0; 0.5; 0.25; 0.1; 0.05; 0.02; 0.01]%float.

Definition training_lines (lb : logbook) : list Line2D :=
  [ {| xdata := lb_gen lb; ydata := samples (lb_score_max lb); label := "Maximum Score" |};
    {| xdata := lb_gen lb; ydata := samples (lb_score_avg lb); label := "Average Score" |} ].

Definition test_lines (lb : logbook) : list Line2D :=
  [ {| xdata := lb_gen lb; ydata := samples (lb_test_max lb);
       label := "Maximum Test score" |};
    {| xdata := lb_gen lb; ydata := samples (lb_test_avg lb);
       label := "Average Test score" |} ].

(** The test-score samples of both series, and whether one of them is not
    equal to 0.0. *)
Definition test_samples (lb : logbook) : list float :=
  samples (lb_test_max lb) ++ samples (lb_test_avg lb).

Definition some_test_score_nonzero (lb : logbook) : bool :=
  existsb (λ x, negb (PrimFloat.eqb x 0.0%float)) (test_samples lb).

Definition is_array (c : column) : Prop :=
  match c with NdArray _ => True | PyList _ => False end.

Definition is_list (c : column) : Prop :=
  match c with PyList _ => True | NdArray _ => False end.

(** The positions of [enumerate] selected by a test on the value. *)
Definition positions_where (keep : bool → bool) (mask : list bool) : list nat :=
  omap (λ '(i, val), if keep val then Some i else None) (enumerate mask).

(** ** The bounded fit *)

(** The classifier [run_task] constructs for the transformed features. *)
Definition task_clf (n_jobs : Z) (timeout : option Z) (X : matrix) : GenensClassifier :=
  {| n_jobs := n_jobs; timeout := timeout;
     evaluator := {| cv_k := 5; timeout_s := timeout; per_gen := false;
                     sample_size := _heuristic_sample_size (shape0 X) (shape1 X) |};
     max_height := 8 |}.

(** The calls [run_task] makes up to and including the start of the fit. *)
Definition calls_until_fit (t : task) (n_jobs : Z) (timeout : option Z)
    (X : matrix) (categorical : list bool) (X' : matrix) : list call :=
  [ CGetDataset (task_id t); CGetData (task_id t);
    CFitTransform (task_id t) (_conditional_imput X categorical);
    CFit (task_id t) (dataset_name t) (task_clf n_jobs timeout X') ].

Definition timeout_message (t : task) : string :=
  "Timeout - task " +:+ pretty (task_id t) +:+ " on dataset " +:+ dataset_name t.

(** ** A small world to run the harness in *)

(** The logbook of two generations in which no test score was recorded,
    with its columns as lists and as arrays. *)
Definition sample_logbook : logbook :=
  {| lb_gen := [0; 1];
     lb_score_max := PyList [0.5; 0.75]%float;
     lb_score_avg := PyList [0.25; 0.5]%float;
     lb_test_max := PyList [0; 0]%float; lb_test_avg := PyList [0; 0]%float;
     lb_str := "gen" |}.

Definition sample_logbook_arrays : logbook :=
  {| lb_gen := [0; 1];
     lb_score_max := NdArray [0.5; 0.75]%float;
     lb_score_avg := NdArray [0.25; 0.5]%float;
     lb_test_max := NdArray [0; 0]%float; lb_test_avg := NdArray [0; 0]%float;
     lb_str := "gen" |}.

Definition sample_individual (n : nat) : individual :=
  {| ind_pipeline := Candidate n; fitness_values := [0.75%float] |}.

Definition sample_fitted : fitted :=
  {| fitted_logbook := sample_logbook;
     ranked := [sample_individual 0; sample_individual 1] |}.

(** A task on a 150 x 4 dataset: loading takes 100 time units, the fit 20. *)
Definition sample_task (id : Z) (name : string) (fit : outcome fitted) : task :=
  {| task_id := id; dataset_name := name;
     get_data := Ok (Matrix 150 4, [false; false; true; false]);
     load_time := 100;
     fit_transform := λ _, Ok (Matrix 150 4); impute_time := 1;
     clf_fit := λ _ _, fit; fit_time := 20;
     run_model_on_task := λ _, Ok {| run_accuracy := [0.5%float] |};
     eval_time := 7 |}.

Definition iris : task := sample_task 59 "iris" (Ok sample_fitted).
Definition wine : task := sample_task 7 "wine" (Raise (OtherError "ValueError")).

Definition sample_world : world :=
  {| suite_tasks := [59; 7];
     get_task := λ id, if decide (id = 59) then iris else wine;
     HIGHEST_PROTOCOL := 5 |}.

(** A file system that holds the directory [/iris] and nothing else. *)
Definition iris_dir_only : state := State {["/iris"]} ∅ 0 [] [].

(** ** Frames: what a computation may call and touch *)

(** [touches_only P Q st st']: from [st] to [st'] the only calls made satisfy
    [P], no directory disappears, and outside the paths [Q] no directory
    appears and no file changes. *)
Record touches_only (P : call → Prop) (Q : string → Prop) (st st' : state) : Prop := {
  touches_calls : ∃ new, calls st' = calls st ++ new ∧ Forall P new;
  touches_dirs_mono : dirs st ⊆ dirs st';
  touches_dirs : ∀ p, ¬ Q p → p ∈ dirs st' → p ∈ dirs st;
  touches_files : ∀ p, ¬ Q p → files st' !! p = files st !! p
}.

Definition confined {A} (P : call → Prop) (Q : string → Prop) (m : M A) : Prop :=
  ∀ st, touches_only P Q st (m st).2.

(** A path that extends [out_dir]. *)
Definition under (out_dir : string) (p : string) : Prop :=
  ∃ rest, p = out_dir +:+ rest.

(** The calls made for task [t] when its artifacts go to [out_dir]. *)
Definition task_call (t : task) (out_dir : string) (c : call) : Prop :=
  match c with
  | CGetDataset i | CGetData i | CFitTransform i _ | CRunModel i _ => i = task_id t
  | CFit i name _ => i = task_id t ∧ name = dataset_name t
  | CToFilesystem d => under out_dir d
  | CGetStudy _ _ | CGetTask _ => False
  end.

(** What the loop of [run_tests] may call and touch for the identifier
    [tid]: the fetch of the task, the directory [/name] it checks, and the
    frame of [run_task] under [out_dir/name]. *)
Definition suite_call (w : world) (out_dir : string) (tid : Z) (c : call) : Prop :=
  c = CGetTask tid ∨
  task_call (get_task w tid) (out_dir +:+ "/" +:+ dataset_name (get_task w tid)) c.

Definition suite_path (w : world) (out_dir : string) (tid : Z) (p : string) : Prop :=
  p = "/" +:+ dataset_name (get_task w tid) ∨
  under (out_dir +:+ "/" +:+ dataset_name (get_task w tid)) p.

(** Whether [run_tests] processes the identifier or skips it. *)
Definition not_skipped (task_ids : option (list Z)) (tid : Z) : Prop :=
  match task_ids with Some ids => tid ∈ ids | None => True end.

Global Instance not_skipped_dec task_ids tid : Decision (not_skipped task_ids tid).
Proof. destruct task_ids; simpl; apply _. Defined.

(** The identifiers of the suite that [run_tests] does not skip. *)
Definition selected (w : world) (task_ids : option (list Z)) (tid : Z) : Prop :=
  tid ∈ suite_tasks w ∧ not_skipped task_ids tid.

(** The same world with another suite. *)
Definition with_suite (w : world) (l : list Z) : world :=
  {| suite_tasks := l; get_task := get_task w;
     HIGHEST_PROTOCOL := HIGHEST_PROTOCOL w |}.

(** ** Collisions and resumability *)

Definition collision_message (out_dir : string) : string :=
  "Test directory " +:+ out_dir +:+ " already exists.".

(** No fit of a task on dataset [name]. *)
Definition no_fit_of (name : string) (c : call) : Prop :=
  ∀ i clf, c ≠ CFit i name clf.

(** Every file lies in the working directory, in the root or in a directory
    that exists. *)
Definition files_in_dirs (st : state) : Prop :=
  ∀ f dir, is_Some (files st !! f) → dirname f = Some dir → dir = "" ∨ dir ∈ dirs st.

(** ** The artifacts of a completed fit *)

Definition dir_ok (ds : gset string) (d : string) : Prop := d = "" ∨ d ∈ ds.

Definition pickle_path (out_dir : string) (i : nat) : string :=
  out_dir +:+ "/pipeline" +:+ pretty i +:+ ".pickle".

(** A computation that only writes files in the directory [d]: when [d]
    exists it returns, and outside the paths [Q] the files are as before. *)
Definition writes_files (d : string) (Q : string → Prop) (m : M unit) : Prop :=
  ∀ st, dir_ok (dirs st) d →
    ∃ fs, m st = (Ok (), State (dirs st) fs (clock st) (stdout st) (calls st)) ∧
          ∀ p, ¬ Q p → fs !! p = files st !! p.

(** The paths written by [_log_evolution] before it pickles the pipelines. *)
Definition log_path (out_dir : string) (p : string) : Prop :=
  p = out_dir +:+ "/logbook.txt" ∨ p = out_dir +:+ "/result.png" ∨
  p = out_dir +:+ "/ind-fitness.txt" ∨
  ∃ i : nat, p = out_dir +:+ "/graph" +:+ pretty i +:+ ".png".

(** The statements of [_log_evolution] that precede the pickling loop, and
    that loop. *)
Definition log_evolution_texts (fitted_clf : fitted) (out_dir : string) : M unit :=
  open_w (out_dir +:+ "/logbook.txt") ;;
  file_write (out_dir +:+ "/logbook.txt") (LogbookLine (lb_str (fitted_logbook fitted_clf))) ;;
  export_plot fitted_clf (out_dir +:+ "/result.png") ;;
  open_w (out_dir +:+ "/ind-fitness.txt") ;;
  for_each (enumerate (take 5 (get_best_individuals fitted_clf)))
    (λ '(i, ind),
       file_write (out_dir +:+ "/ind-fitness.txt") (FitnessLine i (fitness_values ind)) ;;
       create_graph ind (out_dir +:+ "/graph" +:+ pretty i +:+ ".png")).

Definition pickle_one (w : world) (out_dir : string) (ip : nat * pipeline) : M unit :=
  let '(i, pipe) := ip in
  open_w (out_dir +:+ "/pipeline" +:+ pretty i +:+ ".pickle") ;;
  pickle_dump pipe (out_dir +:+ "/pipeline" +:+ pretty i +:+ ".pickle")
              (HIGHEST_PROTOCOL w).

(** The unpickler of an interpreter whose highest protocol is [h] loads the
    protocols 0 to [h]: the higher the protocol of a pickle, the more recent
    the interpreter needed to read it. *)
Definition loads (h : Z) (protocol : Z) : bool :=
  (0 <=? protocol) && (protocol <=? h).

(** [p] is a protocol of the writer that every interpreter able to load some
    pickle of the writer can load. *)
Definition maximally_compatible (highest : Z) (p : Z) : Prop :=
  loads highest p = true ∧
  ∀ q h, loads highest q = true → loads h q = true → loads h p = true.

(** ** File systems in which a directory is already there *)

(** The directory [/iris/run0] is there already, and empty. *)
Definition iris_run0_done : state :=
  State {["/iris"; "/iris/run0"]} ∅ 0 [] [].

Definition to_filesystem_dirs (cs : list call) : list string :=
  omap (λ c, match c with CToFilesystem d => Some d | _ => None end) cs.

Definition run_model_pipes (cs : list call) : list pipeline :=
  omap (λ c, match c with CRunModel _ p => Some p | _ => None end) cs.

(** A file system with the output root [out] only; one in which [out/iris]
    holds the time file of a completed run; and one in which only [/iris]
    exists besides the root. *)
Definition out_only : state := State {["out"]} ∅ 0 [] [].

Definition out_iris_done : state :=
  State {["out"; "out/iris"]}
        {["out/iris/time.txt" := Text [ElapsedTimeLine 3]]} 0 [] [].

Definition root_iris_only : state := State {["out"; "/iris"]} ∅ 0 [] [].

(** ** What the harness never undoes *)

(** A directory or a file is at [p]. *)
Definition path_exists (st : state) (p : string) : Prop :=
  p ∈ dirs st ∨ is_Some (files st !! p).

(** From [st] to [st'] no directory and no file is removed, and the output
    and the call log are only appended to. *)
Record grows (st st' : state) : Prop := {
  grows_dirs : dirs st ⊆ dirs st';
  grows_files : ∀ p, is_Some (files st !! p) → is_Some (files st' !! p);
  grows_stdout : stdout st `prefix_of` stdout st';
  grows_calls : calls st `prefix_of` calls st'
}.

(** Every run of [m] relates the state it starts in to the state it ends
    in, whether it returns or raises. *)
Definition steps (R : relation state) {A} (m : M A) : Prop :=
  ∀ st, R st (m st).2.

(** The seven effects through which the harness changes the state. *)
Record primitives_keep (R : relation state) : Prop := {
  keep_print : ∀ s, steps R (print s);
  keep_record_call : ∀ c, steps R (record_call c);
  keep_elapse : ∀ d, steps R (elapse d);
  keep_os_mkdir : ∀ path, steps R (os_mkdir path);
  keep_create_file : ∀ path a, steps R (create_file path a);
  keep_file_write : ∀ path l, steps R (file_write path l);
  keep_pickle_dump : ∀ obj path protocol, steps R (pickle_dump obj path protocol)
}.

Global Instance grows_preorder : PreOrder grows.
Proof.
  split.
  - intros st. by split.
  - intros st1 st2 st3 [D1 F1 O1 C1] [D2 F2 O2 C2].
    split; [by etrans|auto|by etrans|by etrans].
Qed.

Global Instance path_exists_dec st p : Decision (path_exists st p).
Proof. unfold path_exists. apply _. Defined.

Definition cannot_create_message : string :=
  nl +:+ "Cannot create test directory.".

(** The state after a line is printed. *)
Definition printed (st : state) (s : string) : state :=
  State (dirs st) (files st) (clock st) (stdout st ++ [s]) (calls st).

(** ** A second run of the suite *)

(** The directory the loop of [run_tests] checks for the identifier. *)
Definition dataset_dir (w : world) (tid : Z) : string :=
  "/" +:+ dataset_name (get_task w tid).


Definition fetches (w : world) (l : list Z) : list call :=
  l ≫= λ tid, [CGetTask tid; CGetDataset (task_id (get_task w tid))].

Definition collisions (w : world) (l : list Z) : list string :=
  (λ tid, collision_message (dataset_dir w tid)) <$> l.

(** The state in which the first task of the sample suite has been
    processed to the end. *)
Definition after_first_run : state :=
  (run_tests sample_world (Some [59]) "" 1 None None (State ∅ ∅ 0 [] [])).2.

(** ** How the fits are configured *)


(** ** After the fit *)

(** The statements of [run_task] that follow the measurement of the elapsed
    time. *)
Definition record_and_reevaluate (w : world) (t : task) (clf : fitted)
    (out_dir : string) (imputer : ColumnTransformer) (elapsed_time : Z) : M unit :=
  open_w (out_dir +:+ "/time.txt") ;;
  file_write (out_dir +:+ "/time.txt") (ElapsedTimeLine elapsed_time) ;;
  _log_evolution w clf out_dir ;;
  for_each (enumerate (take 5 (get_best_pipelines clf)))
    (λ '(i, pipe),
       let pipe_dir := out_dir +:+ "/run" +:+ pretty i in
       _create_dir_check pipe_dir ;;
       evaluate_pipeline pipe t pipe_dir (Some imputer)).

(** The state in which the fit has just returned or raised. *)
Definition fit_done (t : task) (n_jobs : Z) (timeout : option Z)
    (X : matrix) (categorical : list bool) (X' : matrix) (st : state) : state :=
  State (dirs st) (files st)
        (clock st + load_time t + impute_time t + fit_time t)
        (stdout st)
        (calls st ++ calls_until_fit t n_jobs timeout X categorical X').

(** The deadline, if there is one, does not expire during the fit. *)
Definition within_deadline (t : task) (task_timeout : option Z) : Prop :=
  match task_timeout with Some d => fit_time t ≤ d | None => True end.

(** A path of [out_dir] other than its time file. *)
Definition not_time_file (out_dir : string) (p : string) : Prop :=
  ∃ rest, p = out_dir +:+ rest ∧ rest ≠ "/time.txt".

(** A task whose data cannot be loaded: the download times out. *)
Definition unreadable : task :=
  {| task_id := 11; dataset_name := "credit";
     get_data := Raise TimeoutException; load_time := 60;
     fit_transform := λ _, Ok (Matrix 0 0); impute_time := 0;
     clf_fit := λ _ _, Ok sample_fitted; fit_time := 0;
     run_model_on_task := λ _, Raise (OtherError "ValueError"); eval_time := 0 |}.

(** ** The evaluation of one candidate *)


(** All the columns the transformers of a [ColumnTransformer] are applied
    to, in the order of its output. *)
Definition transformed_columns (ct : ColumnTransformer) : list nat :=
  transformers ct ≫= λ '(_, _, columns), columns.

(** ** The files of the recorder *)

Definition graph_path (out_dir : string) (i : nat) : string :=
  out_dir +:+ "/graph" +:+ pretty i +:+ ".png".

(** The body of the first loop of [_log_evolution]. *)
Definition fitness_one (out_dir : string) (ii : nat * individual) : M unit :=
  let '(i, ind) := ii in
  file_write (out_dir +:+ "/ind-fitness.txt") (FitnessLine i (fitness_values ind)) ;;
  create_graph ind (out_dir +:+ "/graph" +:+ pretty i +:+ ".png").

(** The lines of ind-fitness.txt for the individuals [l], numbered from [k]. *)
Definition fitness_lines (k : nat) (l : list individual) : list line :=
  imap (λ j ind, FitnessLine (k + j) (fitness_values ind)) l.

(** ** The re-evaluation of the ranked candidates *)





(** A world in which every task identifier is a task on the dataset iris. *)
Definition iris_only_world : world :=
  {| suite_tasks := [1; 2];
     get_task := λ id, sample_task id "iris" (Ok sample_fitted);
     HIGHEST_PROTOCOL := 5 |}.

(** * The sample-size policy *)

(** C4: [_heuristic_sample_size] is a total function of the two counts.  It
    is 1.0 whenever [n * m < 10000], whatever [n] and [m] are; otherwise the
    first matching rule of n<1000 → 0.5, n<5000 → 0.25, n<10000 → 0.1,
    n<20000 → 0.05, m<10 → 0.02, else 0.01 decides.  The result is always
    one of the seven fractions, all of which lie in (0, 1]. *)
Theorem heuristic_sample_size_policy (n m : Z) :
  let r := _heuristic_sample_size n m in
  (n * m < 10000 → r = 1.0%float) ∧
  (10000 ≤ n * m → n < 1000 → r = 0.5%float) ∧
  (10000 ≤ n * m → 1000 ≤ n < 5000 → r = 0.25%float) ∧
  (10000 ≤ n * m → 5000 ≤ n < 10000 → r = 0.1%float) ∧
  (10000 ≤ n * m → 10000 ≤ n < 20000 → r = 0.05%float) ∧
  (10000 ≤ n * m → 20000 ≤ n → m < 10 → r = 0.02%float) ∧
  (10000 ≤ n * m → 20000 ≤ n → 10 ≤ m → r = 0.01%float) ∧
  r ∈ sample_fractions ∧
  PrimFloat.ltb 0%float r = true ∧ PrimFloat.leb r 1%float = true.
Proof.
  unfold _heuristic_sample_size, sample_fractions; cbv zeta.
  destruct (Z.ltb_spec (n * m) 10000);
    [|destruct (Z.ltb_spec n 1000);
      [|destruct (Z.ltb_spec n 5000);
        [|destruct (Z.ltb_spec n 10000);
          [|destruct (Z.ltb_spec n 20000);
            [|destruct (Z.ltb_spec m 10)]]]]];
    repeat split; intros; try lia; try reflexivity;
    rewrite !elem_of_cons; auto 10.
Qed.

(** The rule applied at the shapes the policy is exercised on. *)
Lemma heuristic_sample_size_examples :
  _heuristic_sample_size 500 5 = 1.0%float ∧
  _heuristic_sample_size 900 20 = 0.5%float ∧
  _heuristic_sample_size 1500 10 = 0.25%float ∧
  _heuristic_sample_size 50000 3 = 0.02%float ∧
  _heuristic_sample_size 50000 50 = 0.01%float ∧
  _heuristic_sample_size 1 9999 = 1.0%float ∧
  _heuristic_sample_size 9999 1 = 1.0%float.
Proof. repeat split; reflexivity. Qed.


(** * The evolution plot *)

Lemma np_all_array (a : list float) (v : float) :
  np_all (column_eq (NdArray a) v) = forallb (λ x, PrimFloat.eqb x v) a.
Proof.
  simpl. induction a as [|x a IH]; simpl; [done|].
  by rewrite IH.
Qed.

Lemma forallb_existsb_negb {A} (f : A → bool) (l : list A) :
  forallb f l = negb (existsb (λ x, negb (f x)) l).
Proof.
  induction l as [|x l IH]; simpl; [done|].
  rewrite IH. by destruct (f x).
Qed.

Lemma export_plot_axes_legend (estimator : fitted) :
  ax_legend (export_plot_axes estimator) =
    map (λ l, (l, label l)) (ax_lines (export_plot_axes estimator)).
Proof.
  unfold export_plot_axes; cbv zeta.
  destruct (np_all _ && np_all _); reflexivity.
Qed.

Lemma export_plot_axes_arrays (estimator : fitted) :
  let lb := fitted_logbook estimator in
  is_array (lb_test_max lb) → is_array (lb_test_avg lb) →
  ax_lines (export_plot_axes estimator) =
    if some_test_score_nonzero lb
    then training_lines lb ++ test_lines lb else training_lines lb.
Proof.
  cbv zeta. intros Hmax Havg.
  unfold export_plot_axes, training_lines, test_lines, some_test_score_nonzero,
    test_samples; cbv zeta.
  destruct (lb_test_max _) as [|a]; [done|].
  destruct (lb_test_avg _) as [|b]; [done|].
  rewrite !np_all_array, existsb_app, !forallb_existsb_negb, <-negb_orb.
  simpl samples. destruct (existsb _ a || existsb _ b); reflexivity.
Qed.

(** When the selected columns are numpy arrays the plot is as intended: the
    two test curves are drawn exactly when some test-score sample is not
    equal to 0.0, and an all-zero history gives the two training series
    only. *)
Lemma export_plot_array_columns (estimator : fitted) :
  let lb := fitted_logbook estimator in
  let ax := export_plot_axes estimator in
  is_array (lb_test_max lb) → is_array (lb_test_avg lb) →
  (ax_lines ax = training_lines lb ++ test_lines lb ↔
     ∃ x, x ∈ test_samples lb ∧ PrimFloat.eqb x 0.0%float = false) ∧
  (ax_lines ax = training_lines lb ↔
     ∀ x, x ∈ test_samples lb → PrimFloat.eqb x 0.0%float = true).
Proof.
  cbv zeta. intros Hmax Havg.
  rewrite export_plot_axes_arrays by done. unfold some_test_score_nonzero.
  set (ts := test_samples _).
  destruct (existsb _ ts) eqn:He.
  - apply existsb_exists in He as (x & Hx & Hnz).
    apply list_elem_of_In in Hx. apply negb_true_iff in Hnz.
    split; [split; eauto|]. split.
    + intros Heq. by apply (f_equal length) in Heq.
    + intros Hall. rewrite (Hall x Hx) in Hnz. done.
  - assert (∀ x, x ∈ ts → PrimFloat.eqb x 0.0%float = true) as Hall.
    { intros x Hx. apply list_elem_of_In in Hx.
      destruct (PrimFloat.eqb x 0.0%float) eqn:Hz; [done|].
      assert (existsb (λ x, negb (PrimFloat.eqb x 0.0%float)) ts = true) as Ht.
      { apply existsb_exists. exists x. by rewrite Hz. }
      congruence. }
    split; [split|done].
    + intros Heq. by apply (f_equal length) in Heq.
    + intros (x & Hx & Hnz). rewrite (Hall x Hx) in Hnz. done.
Qed.

(** C6: on the logbook the Evolver hands over, whose selected columns are
    Python lists, [test_max == 0.0] is the single boolean False, so
    [test_all_zero] is False whatever the samples are: the two test curves
    are always drawn.  For the history of two generations in which every
    test-score sample equals 0.0 the saved figure has four lines and four
    legend entries, not the two training series alone; the same history
    held in numpy arrays gives those two. *)
Theorem all_zero_test_scores_in_lists_are_plotted :
  (∀ estimator,
     is_list (lb_test_max (fitted_logbook estimator)) ∨
     is_list (lb_test_avg (fitted_logbook estimator)) →
     ax_lines (export_plot_axes estimator) =
       training_lines (fitted_logbook estimator) ++
       test_lines (fitted_logbook estimator)) ∧
  forallb (λ x, PrimFloat.eqb x 0.0%float) (test_samples sample_logbook) = true ∧
  map label (ax_lines (export_plot_axes sample_fitted)) =
    ["Maximum Score"; "Average Score"; "Maximum Test score"; "Average Test score"] ∧
  map snd (ax_legend (export_plot_axes sample_fitted)) =
    ["Maximum Score"; "Average Score"; "Maximum Test score"; "Average Test score"] ∧
  files (export_plot sample_fitted "/iris/result.png" iris_dir_only).2
    !! "/iris/result.png" = Some (Png (export_plot_axes sample_fitted)) ∧
  map label (ax_lines (export_plot_axes
               {| fitted_logbook := sample_logbook_arrays; ranked := [] |})) =
    ["Maximum Score"; "Average Score"].
Proof.
  split.
  - intros estimator Hlist.
    unfold export_plot_axes, training_lines, test_lines; cbv zeta.
    destruct (lb_test_max _) as [a|a], (lb_test_avg _) as [b|b]; simpl in *;
      rewrite ?andb_false_r; try reflexivity.
    by destruct Hlist.
  - repeat split; vm_compute; reflexivity.
Qed.

(** * The imputation selector *)

Lemma positions_where_shift (keep : bool → bool) (k : nat) (mask : list bool) :
  omap (λ '(i, val), if keep val then Some i else None)
       (imap (λ j x, (k + j, x)%nat) mask)
  = map (Nat.add k) (positions_where keep mask).
Proof.
  unfold positions_where, enumerate. revert k.
  induction mask as [|b mask IH]; intros k; [done|].
  rewrite !imap_cons. cbn [omap list_omap].
  rewrite (imap_ext _ (λ j x, (S k + j, x)%nat)) by (intros; simpl; f_equal; lia).
  rewrite (imap_ext (pair ∘ S) (λ j x, (1 + j, x)%nat)) by done.
  rewrite !IH.
  destruct (keep b); simpl; rewrite <-?list_fmap_compose;
    [f_equal|]; apply list_fmap_ext; intros; simpl; lia.
Qed.

Lemma positions_where_cons (keep : bool → bool) (b : bool) (mask : list bool) :
  positions_where keep (b :: mask) =
    (if keep b then [0%nat] else []) ++ map S (positions_where keep mask).
Proof.
  unfold positions_where at 1, enumerate. rewrite imap_cons. cbn [omap list_omap].
  rewrite (imap_ext (pair ∘ S) (λ j x, (1 + j, x)%nat)) by done.
  rewrite positions_where_shift. by destruct (keep b).
Qed.

Lemma elem_of_positions_where (keep : bool → bool) (mask : list bool) (i : nat) :
  i ∈ positions_where keep mask ↔ ∃ b, mask !! i = Some b ∧ keep b = true.
Proof.
  unfold positions_where, enumerate. rewrite list_elem_of_omap. split.
  - intros ([j b] & Hin & Hk). apply elem_of_lookup_imap in Hin as (j' & b' & Heq & Hl).
    simplify_eq. destruct (keep b') eqn:Hb; simplify_eq. eauto.
  - intros (b & Hl & Hb). exists (i, b). split.
    + by apply (elem_of_lookup_imap_2 pair).
    + by rewrite Hb.
Qed.

Lemma positions_where_sorted (keep : bool → bool) (mask : list bool) :
  StronglySorted Nat.lt (positions_where keep mask).
Proof.
  induction mask as [|b mask IH]; [constructor|].
  rewrite positions_where_cons.
  assert (StronglySorted Nat.lt (map S (positions_where keep mask))) as HS.
  { clear -IH. induction IH as [|x l _ IHl Hx]; simpl; constructor; [done|].
    rewrite Forall_fmap. eapply Forall_impl; [exact Hx|]. intros y ?; simpl.
    unfold Nat.lt in *. lia. }
  destruct (keep b); simpl; [|done].
  constructor; [done|]. rewrite Forall_fmap. apply Forall_forall.
  intros y _; simpl. unfold Nat.lt. lia.
Qed.

(** C7: from the categorical mask the selector takes, in increasing order,
    the positions where the mask is False as the numerical columns and the
    positions where it is True as the categorical columns; the composite
    transformer imputes the numerical columns with strategy mean and the
    categorical columns with strategy median.  For the mask
    [True, False, True] the numerical columns are [1] and the categorical
    ones [0, 2]. *)
Theorem conditional_imput_partition (X : matrix) (categorical : list bool) :
  let numerical_id := positions_where negb categorical in
  let categorical_id := positions_where id categorical in
  transformers (_conditional_imput X categorical) =
    [ ("mean_imputer", {| imputer_strategy := Mean |}, numerical_id);
      ("median_imputer", {| imputer_strategy := Median |}, categorical_id) ] ∧
  (∀ i, i ∈ numerical_id ↔ categorical !! i = Some false) ∧
  (∀ i, i ∈ categorical_id ↔ categorical !! i = Some true) ∧
  StronglySorted Nat.lt numerical_id ∧
  StronglySorted Nat.lt categorical_id ∧
  (∀ i, (i < length categorical)%nat ↔ i ∈ numerical_id ∨ i ∈ categorical_id) ∧
  (∀ i, ¬ (i ∈ numerical_id ∧ i ∈ categorical_id)) ∧
  transformers (_conditional_imput X [true; false; true]) =
    [ ("mean_imputer", {| imputer_strategy := Mean |}, [1%nat]);
      ("median_imputer", {| imputer_strategy := Median |}, [0%nat; 2%nat]) ].
Proof.
  cbv zeta.
  assert (∀ i, i ∈ positions_where negb categorical ↔ categorical !! i = Some false) as Hn.
  { intros i. rewrite elem_of_positions_where. split.
    - intros ([] & ? & ?); by simplify_eq/=.
    - intros ?. by exists false. }
  assert (∀ i, i ∈ positions_where id categorical ↔ categorical !! i = Some true) as Hc.
  { intros i. rewrite elem_of_positions_where. split.
    - intros ([] & ? & ?); by simplify_eq/=.
    - intros ?. by exists true. }
  split; [reflexivity|].
  split; [done|]. split; [done|].
  split; [apply positions_where_sorted|]. split; [apply positions_where_sorted|].
  split; [|split; [|reflexivity]].
  - intros i. rewrite Hn, Hc. split.
    + intros [[] Hb]%lookup_lt_is_Some_2; auto.
    + intros [H|H]; by apply lookup_lt_Some in H.
  - intros i. rewrite Hn, Hc. intros [? ?]. congruence.
Qed.

(** * The bounded fit of [run_task] *)

Section bounded_fit.
Context (w : world) (t : task) (out_dir : string).
Context (n_jobs : Z) (timeout : option Z).
Context (X : matrix) (categorical : list bool) (X' : matrix).
Hypothesis loaded : get_data t = Ok (X, categorical).
Hypothesis imputed : fit_transform t (_conditional_imput X categorical) = Ok X'.

Lemma run_task_fit_timeout (d : Z) (st : state) :
  d < fit_time t →
  run_task w t out_dir n_jobs timeout (Some d) st =
    (Ok (), State (dirs st) (files st)
                  (clock st + load_time t + impute_time t + d)
                  (stdout st ++ [timeout_message t])
                  (calls st ++ calls_until_fit t n_jobs timeout X categorical X')).
Proof.
  intros Hd. unfold run_task, with_Timeout.
  destruct (Z.ltb_spec d (fit_time t)); [|lia].
  unfold mbind, M_bind, external, try_except, record_call, elapse, time_time, print, mret, M_ret.
  simpl. rewrite loaded. simpl. rewrite imputed. simpl.
  rewrite <-!(assoc_L (++)). reflexivity.
Qed.

Lemma run_task_fit_raises (task_timeout : option Z) (e : exn) (st : state) :
  clf_fit t (task_clf n_jobs timeout X') X' = Raise e →
  e ≠ TimeoutException →
  match task_timeout with Some d => fit_time t ≤ d | None => True end →
  run_task w t out_dir n_jobs timeout task_timeout st =
    (Raise e, State (dirs st) (files st)
                    (clock st + load_time t + impute_time t + fit_time t)
                    (stdout st)
                    (calls st ++ calls_until_fit t n_jobs timeout X categorical X')).
Proof.
  intros Hfit He Hd. unfold run_task, with_Timeout.
  assert (match task_timeout with
          | Some s => (s <? fit_time t) = false | None => True end) as Hlt.
  { destruct task_timeout; [|done]. apply Z.ltb_ge. lia. }
  unfold mbind, M_bind, external, try_except, record_call, elapse, time_time, print, mret, M_ret.
  simpl. rewrite loaded. simpl. rewrite imputed. simpl.
  destruct task_timeout as [s|]; [rewrite Hlt|]; simpl;
    fold (task_clf n_jobs timeout X'); rewrite Hfit;
    destruct e; try done; simpl; rewrite <-!(assoc_L (++)); reflexivity.
Qed.
End bounded_fit.

(** C5: when the bounded fit times out, [run_task] returns normally having
    written nothing: directories and files are as before, no call follows
    the start of the fit, and the one line printed names the task
    identifier and the dataset.  An exception other than the timeout raised
    by the fit within the deadline leaves [run_task] as that same
    exception, again with nothing written and nothing printed. *)
Theorem fit_timeout_skips_task
    (w : world) (t : task) (out_dir : string) (n_jobs : Z) (timeout : option Z)
    (X : matrix) (categorical : list bool) (X' : matrix) (st : state) :
  get_data t = Ok (X, categorical) →
  fit_transform t (_conditional_imput X categorical) = Ok X' →
  (∀ d, d < fit_time t →
     run_task w t out_dir n_jobs timeout (Some d) st =
       (Ok (), State (dirs st) (files st)
                     (clock st + load_time t + impute_time t + d)
                     (stdout st ++ ["Timeout - task " +:+ pretty (task_id t) +:+
                                    " on dataset " +:+ dataset_name t])
                     (calls st ++ calls_until_fit t n_jobs timeout X categorical X'))) ∧
  (∀ task_timeout e,
     clf_fit t (task_clf n_jobs timeout X') X' = Raise e →
     e ≠ TimeoutException →
     match task_timeout with Some d => fit_time t ≤ d | None => True end →
     run_task w t out_dir n_jobs timeout task_timeout st =
       (Raise e, State (dirs st) (files st)
                       (clock st + load_time t + impute_time t + fit_time t)
                       (stdout st)
                       (calls st ++ calls_until_fit t n_jobs timeout X categorical X'))).
Proof.
  intros Hdata Himp. split.
  - intros d Hd. by apply run_task_fit_timeout.
  - intros task_timeout e Hfit He Hd. by apply run_task_fit_raises.
Qed.

Lemma fit_timeout_skips_task_witness :
  run_task sample_world iris "/iris" 1 None (Some 10) iris_dir_only =
    (Ok (), State {["/iris"]} ∅ 111 ["Timeout - task 59 on dataset iris"]
              (calls_until_fit iris 1 None (Matrix 150 4)
                               [false; false; true; false] (Matrix 150 4))) ∧
  run_task sample_world wine "/wine" 1 None (Some 30) iris_dir_only =
    (Raise (OtherError "ValueError"),
     State {["/iris"]} ∅ 121 []
           (calls_until_fit wine 1 None (Matrix 150 4)
                            [false; false; true; false] (Matrix 150 4))).
Proof.
  split.
  - apply (fit_timeout_skips_task sample_world iris "/iris" 1 None
             (Matrix 150 4) [false; false; true; false] (Matrix 150 4)
             iris_dir_only eq_refl eq_refl).
    reflexivity.
  - apply (fit_timeout_skips_task sample_world wine "/wine" 1 None
             (Matrix 150 4) [false; false; true; false] (Matrix 150 4)
             iris_dir_only eq_refl eq_refl).
    + reflexivity.
    + discriminate.
    + simpl. lia.
Defined.

(** C1, as stated, fails: with a deadline of 30 the loading alone takes 100,
    yet the fit, the recording and both re-evaluations are carried out, no
    diagnostic is printed and the task ends 135 time units after it began. *)
Lemma task_deadline_exceeded_while_loading :
  let r := run_task sample_world iris "/iris" 1 None (Some 30) iris_dir_only in
  30 < load_time iris ∧
  r.1 = Ok () ∧
  clock r.2 - clock iris_dir_only = 135 ∧
  stdout r.2 = [] ∧
  files r.2 !! "/iris/time.txt" = Some (Text [ElapsedTimeLine 20]) ∧
  files r.2 !! "/iris/pipeline1.pickle" = Some (Pickled (Candidate 1) 5) ∧
  files r.2 !! "/iris/run1/accuracy-score.txt" = Some (Text [ScoreLine [0.5%float]]) ∧
  last (calls r.2) = Some (CToFilesystem "/iris/run1").
Proof. cbv zeta. repeat split; vm_compute; reflexivity. Qed.

(** C1, amended: the per-task deadline bounds the fit call only.  When the
    fit completes, or fails, within the deadline, the task is processed
    exactly as with no deadline at all, however long loading, imputing,
    recording and re-evaluating take.  When the fit is still running at the
    deadline, the recording and the re-evaluation are not carried out, the
    line naming the task identifier and the dataset is printed and
    [run_task] returns normally, so that the suite goes on with the next
    task. *)
Theorem task_timeout_bounds_fit_only
    (w : world) (t : task) (out_dir : string) (n_jobs : Z) (timeout : option Z)
    (d : Z) (st : state) :
  (fit_time t ≤ d →
     run_task w t out_dir n_jobs timeout (Some d) st =
     run_task w t out_dir n_jobs timeout None st) ∧
  (d < fit_time t →
     ∀ X categorical X',
       get_data t = Ok (X, categorical) →
       fit_transform t (_conditional_imput X categorical) = Ok X' →
       run_task w t out_dir n_jobs timeout (Some d) st =
         (Ok (), State (dirs st) (files st)
                       (clock st + load_time t + impute_time t + d)
                       (stdout st ++ [timeout_message t])
                       (calls st ++ calls_until_fit t n_jobs timeout X categorical X'))).
Proof.
  split.
  - intros Hd. unfold run_task, with_Timeout.
    destruct (Z.ltb_spec d (fit_time t)); [lia|reflexivity].
  - intros Hd X categorical X' Hdata Himp. by apply run_task_fit_timeout.
Qed.

Lemma task_timeout_bounds_fit_only_witness :
  run_task sample_world iris "/iris" 1 None (Some 30) iris_dir_only =
  run_task sample_world iris "/iris" 1 None None iris_dir_only ∧
  run_task sample_world iris "/iris" 1 None (Some 10) iris_dir_only =
    (Ok (), State {["/iris"]} ∅ 111 [timeout_message iris]
              (calls_until_fit iris 1 None (Matrix 150 4)
                               [false; false; true; false] (Matrix 150 4))).
Proof.
  split.
  - apply (task_timeout_bounds_fit_only sample_world iris "/iris" 1 None 30 iris_dir_only).
    simpl. lia.
  - apply (task_timeout_bounds_fit_only sample_world iris "/iris" 1 None 10 iris_dir_only).
    + simpl. lia.
    + reflexivity.
    + reflexivity.
Defined.

(** * Frames: what a computation may call and touch *)

Section frame.
Context (P : call → Prop) (Q : string → Prop).

Lemma touches_only_refl (st : state) : touches_only P Q st st.
Proof.
  split; [|done..]. exists []. by rewrite app_nil_r.
Qed.

Lemma touches_only_trans (st1 st2 st3 : state) :
  touches_only P Q st1 st2 → touches_only P Q st2 st3 → touches_only P Q st1 st3.
Proof.
  intros [(n1 & E1 & F1) M1 D1 L1] [(n2 & E2 & F2) M2 D2 L2]. split.
  - exists (n1 ++ n2). rewrite E2, E1, (assoc_L (++)). split; [done|].
    by apply Forall_app.
  - by etrans.
  - intros p Hp Hin. eauto.
  - intros p Hp. rewrite L2, L1; done.
Qed.

Lemma confined_ret {A} (a : A) : confined P Q (mret a).
Proof. intros st. apply touches_only_refl. Qed.

Lemma confined_raise {A} (e : exn) : confined P Q (@raise A e).
Proof. intros st. apply touches_only_refl. Qed.

Lemma confined_bind {A B} (m : M A) (f : A → M B) :
  confined P Q m → (∀ a, confined P Q (f a)) → confined P Q (m ≫= f).
Proof.
  intros Hm Hf st. specialize (Hm st). unfold mbind, M_bind.
  destruct (m st) as [[a|e] st1]; simpl in *; [|done].
  eapply touches_only_trans; [done|]. apply Hf.
Qed.

Lemma confined_try_except {A} (body : M A) (handler : exn → option (M A)) :
  confined P Q body →
  (∀ e h, handler e = Some h → confined P Q h) →
  confined P Q (try_except body handler).
Proof.
  intros Hm Hh st. specialize (Hm st). unfold try_except.
  destruct (body st) as [[a|e] st1]; simpl in *; [done|].
  destruct (handler e) as [h|] eqn:He; [|done].
  eapply touches_only_trans; [done|]. by eapply Hh.
Qed.

Lemma confined_for_each {A} (l : list A) (body : A → M unit) :
  (∀ x, x ∈ l → confined P Q (body x)) → confined P Q (for_each l body).
Proof.
  induction l as [|x l IH]; intros Hb; simpl.
  - apply confined_ret.
  - apply confined_bind.
    + apply Hb. by left.
    + intros _. apply IH. intros y Hy. apply Hb. by right.
Qed.

Lemma confined_print (s : string) : confined P Q (print s).
Proof.
  intros st; split; simpl; [|done..]. exists []. by rewrite app_nil_r.
Qed.

Lemma confined_elapse (d : Z) : confined P Q (elapse d).
Proof.
  intros st; split; simpl; [|done..]. exists []. by rewrite app_nil_r.
Qed.

Lemma confined_time_time : confined P Q time_time.
Proof. intros st. apply touches_only_refl. Qed.

Lemma confined_record_call (c : call) : P c → confined P Q (record_call c).
Proof.
  intros Hc st; split; simpl; [|done..]. exists [c]. split; [done|].
  by constructor.
Qed.

Lemma confined_external {A} (c : call) (d : Z) (r : outcome A) :
  P c → confined P Q (external c d r).
Proof.
  intros Hc. unfold external.
  apply confined_bind; [by apply confined_record_call|]. intros _.
  apply confined_bind; [apply confined_elapse|]. intros _ st.
  apply touches_only_refl.
Qed.

Lemma confined_external_ok {A B} (c : call) (d : Z) (v : A) (f : A → M B) :
  P c → confined P Q (f v) → confined P Q (external c d (Ok v) ≫= f).
Proof.
  intros Hc Hf st.
  pose proof (confined_external c d (Ok v) Hc st) as Hext.
  unfold mbind, M_bind in *. unfold external, record_call, elapse in *. simpl in *.
  eapply touches_only_trans; [exact Hext|]. apply Hf.
Qed.

Lemma confined_with_Timeout {A} (s : option Z) (c : call) (d : Z) (r : outcome A) :
  P c → confined P Q (with_Timeout s c d r).
Proof.
  intros Hc. unfold with_Timeout.
  destruct s as [s|]; [destruct (s <? d)|]; by apply confined_external.
Qed.

Lemma confined_os_mkdir (path : string) : Q path → confined P Q (os_mkdir path).
Proof.
  intros Hq st. unfold os_mkdir.
  destruct (_ || _); [apply touches_only_refl|].
  destruct (parent_exists _ _); [|apply touches_only_refl].
  split; simpl; [|set_solver| |done].
  - exists []. by rewrite app_nil_r.
  - intros p Hp [->%elem_of_singleton|?]%elem_of_union; done.
Qed.

Lemma confined_create_file (path : string) (a : artifact) :
  Q path → confined P Q (create_file path a).
Proof.
  intros Hq st. unfold create_file.
  destruct (parent_exists _ _); [|apply touches_only_refl].
  split; simpl; [|done..|].
  - exists []. by rewrite app_nil_r.
  - intros p Hp. apply lookup_insert_ne. by intros ->.
Qed.

Lemma confined_file_write (path : string) (l : line) :
  Q path → confined P Q (file_write path l).
Proof.
  intros Hq st. split; simpl; [|done..|].
  - exists []. by rewrite app_nil_r.
  - intros p Hp. apply lookup_insert_ne. by intros ->.
Qed.

Lemma confined_pickle_dump (obj : pipeline) (path : string) (protocol : Z) :
  Q path → confined P Q (pickle_dump obj path protocol).
Proof.
  intros Hq st. split; simpl; [|done..|].
  - exists []. by rewrite app_nil_r.
  - intros p Hp. apply lookup_insert_ne. by intros ->.
Qed.

End frame.

Lemma touches_only_weaken (P P' : call → Prop) (Q Q' : string → Prop) (st st' : state) :
  (∀ c, P c → P' c) → (∀ p, Q p → Q' p) →
  touches_only P Q st st' → touches_only P' Q' st st'.
Proof.
  intros HP HQ [(new & E & F) Hm Hd Hf]. split.
  - exists new. split; [done|]. eapply Forall_impl; eauto.
  - done.
  - intros p Hp. apply Hd. naive_solver.
  - intros p Hp. apply Hf. naive_solver.
Qed.

Lemma confined_weaken {A} (P P' : call → Prop) (Q Q' : string → Prop) (m : M A) :
  (∀ c, P c → P' c) → (∀ p, Q p → Q' p) →
  confined P Q m → confined P' Q' m.
Proof. intros HP HQ Hm st. eapply touches_only_weaken; eauto. Qed.

(** ** The frame of one task and of the suite *)

Lemma under_app (out_dir rest : string) : under out_dir (out_dir +:+ rest).
Proof. by exists rest. Qed.

Lemma append_assoc (a b c : string) : (a +:+ b) +:+ c = a +:+ b +:+ c.
Proof.
  induction a as [|x a IH]; [done|].
  change (String x ((a +:+ b) +:+ c) = String x (a +:+ b +:+ c)).
  by rewrite IH.
Qed.

Lemma under_app_app (out_dir r1 r2 : string) : under out_dir ((out_dir +:+ r1) +:+ r2).
Proof. exists (r1 +:+ r2). apply append_assoc. Qed.

Lemma confined_create_dir_check (P : call → Prop) (Q : string → Prop) (out_dir : string) :
  Q out_dir → confined P Q (_create_dir_check out_dir).
Proof.
  intros Hq. unfold _create_dir_check. apply confined_try_except.
  - apply confined_bind; [by apply confined_os_mkdir|]. intros _. apply confined_ret.
  - intros e h He. destruct e; simplify_eq/=.
    + apply confined_bind; [apply confined_print|]. intros _. apply confined_ret.
    + apply confined_bind; [apply confined_print|]. intros _. apply confined_raise.
Qed.

Lemma confined_evaluate_pipeline (P : call → Prop) (Q : string → Prop)
    (pipe : pipeline) (t : task) (out_dir : string) (pre : option ColumnTransformer) :
  (∀ p, P (CRunModel (task_id t) p)) → P (CToFilesystem out_dir) →
  Q (out_dir +:+ "/accuracy-score.txt") →
  confined P Q (evaluate_pipeline pipe t out_dir pre).
Proof.
  intros Hr Hf Hq. unfold evaluate_pipeline.
  apply confined_bind; [by apply confined_external|]. intros r.
  apply confined_bind; [by apply confined_record_call|]. intros _.
  apply confined_bind; [by apply confined_create_file|]. intros _.
  by apply confined_file_write.
Qed.

Lemma confined_log_evolution (P : call → Prop) (w : world) (clf : fitted) (out_dir : string) :
  confined P (under out_dir) (_log_evolution w clf out_dir).
Proof.
  unfold _log_evolution, export_plot, create_graph, open_w.
  apply confined_bind; [apply confined_create_file, under_app|]. intros _.
  apply confined_bind; [apply confined_file_write, under_app|]. intros _.
  apply confined_bind; [apply confined_create_file, under_app|]. intros _.
  apply confined_bind; [apply confined_create_file, under_app|]. intros _.
  apply confined_bind.
  - apply confined_for_each. intros [i ind] _.
    apply confined_bind; [apply confined_file_write, under_app|]. intros _.
    apply confined_create_file, under_app.
  - intros _. apply confined_for_each. intros [i pipe] _.
    apply confined_bind; [apply confined_create_file, under_app|]. intros _.
    apply confined_pickle_dump, under_app.
Qed.

Lemma confined_run_task (w : world) (t : task) (out_dir : string)
    (n_jobs : Z) (timeout task_timeout : option Z) :
  confined (task_call t out_dir) (under out_dir)
           (run_task w t out_dir n_jobs timeout task_timeout).
Proof.
  unfold run_task.
  apply confined_bind; [by apply confined_record_call|]. intros _.
  apply confined_bind; [by apply confined_external|]. intros [X categorical].
  apply confined_bind; [by apply confined_external|]. intros X'.
  apply confined_bind; [apply confined_time_time|]. intros start_time.
  apply confined_bind.
  - apply confined_try_except.
    + apply confined_bind; [by apply confined_with_Timeout|]. intros ?.
      apply confined_ret.
    + intros e h He. destruct e; simplify_eq/=.
      apply confined_bind; [apply confined_print|]. intros _. apply confined_ret.
  - intros [clf|]; [|apply confined_ret].
    apply confined_bind; [apply confined_time_time|]. intros now.
    apply confined_bind; [apply confined_create_file, under_app|]. intros _.
    apply confined_bind; [apply confined_file_write, under_app|]. intros _.
    apply confined_bind; [apply confined_log_evolution|]. intros _.
    apply confined_for_each. intros [i pipe] _.
    apply confined_bind.
    + apply confined_create_dir_check, under_app.
    + intros _. apply confined_evaluate_pipeline.
      * done.
      * apply under_app.
      * apply under_app_app.
Qed.

Lemma run_tests_task_skipped (w : world) (ids : list Z) (out_dir : string)
    (n_jobs : Z) (timeout task_timeout : option Z) (tid : Z) (st : state) :
  tid ∉ ids →
  run_tests_task w (Some ids) out_dir n_jobs timeout task_timeout tid st = (Ok (), st).
Proof. intros Hn. unfold run_tests_task. by rewrite bool_decide_eq_false_2. Qed.

Lemma run_tests_task_selected (w : world) (ids : list Z) (out_dir : string)
    (n_jobs : Z) (timeout task_timeout : option Z) (tid : Z) :
  tid ∈ ids →
  run_tests_task w (Some ids) out_dir n_jobs timeout task_timeout tid =
  run_tests_task w None out_dir n_jobs timeout task_timeout tid.
Proof. intros Hn. unfold run_tests_task. by rewrite bool_decide_eq_true_2. Qed.

Lemma confined_run_tests_task (w : world) (task_ids : option (list Z)) (out_dir : string)
    (n_jobs : Z) (timeout task_timeout : option Z) (tid : Z) :
  confined (suite_call w out_dir tid) (suite_path w out_dir tid)
           (run_tests_task w task_ids out_dir n_jobs timeout task_timeout tid).
Proof.
  unfold run_tests_task. destruct (match task_ids with Some _ => _ | None => _ end).
  { apply confined_ret. }
  apply confined_external_ok; [by left|].
  apply confined_bind; [apply confined_record_call; by right|]. intros _.
  apply confined_bind; [apply confined_create_dir_check; by left|]. intros [|]; simpl.
  - eapply confined_weaken; [| |apply confined_run_task].
    + intros c Hc. by right.
    + intros p Hp. right. exact Hp.
  - apply confined_ret.
Qed.

Lemma confined_run_tests (w : world) (task_ids : option (list Z)) (out_dir : string)
    (n_jobs : Z) (timeout task_timeout : option Z) :
  confined (λ c, c = CGetStudy "OpenML-CC18" "tasks" ∨
                 ∃ tid, selected w task_ids tid ∧ suite_call w out_dir tid c)
           (λ p, ∃ tid, selected w task_ids tid ∧ suite_path w out_dir tid p)
           (run_tests w task_ids out_dir n_jobs timeout task_timeout).
Proof.
  unfold run_tests.
  apply confined_bind; [apply confined_record_call; by left|]. intros _.
  apply confined_for_each. intros tid Hin.
  destruct task_ids as [ids|].
  - destruct (decide (tid ∈ ids)) as [Hsel|Hsel].
    + eapply confined_weaken; [| |apply confined_run_tests_task].
      * intros c Hc. right. exists tid. by repeat split.
      * intros p Hp. exists tid. by repeat split.
    + intros st. rewrite run_tests_task_skipped by done. apply touches_only_refl.
  - eapply confined_weaken; [| |apply confined_run_tests_task].
    + intros c Hc. right. exists tid. by repeat split.
    + intros p Hp. exists tid. by repeat split.
Qed.

(** * The explicit subset of task identifiers *)

Lemma for_each_subset (w : world) (ids : list Z) (out_dir : string)
    (n_jobs : Z) (timeout task_timeout : option Z) (l : list Z) (st : state) :
  for_each l (run_tests_task w (Some ids) out_dir n_jobs timeout task_timeout) st =
  for_each (filter (λ tid, tid ∈ ids) l)
           (run_tests_task w None out_dir n_jobs timeout task_timeout) st.
Proof.
  revert st. induction l as [|tid l IH]; intros st; [done|].
  destruct (decide (tid ∈ ids)) as [Hin|Hout].
  - rewrite filter_cons_True by done. simpl. unfold mbind, M_bind.
    rewrite run_tests_task_selected by done.
    destruct (run_tests_task w None _ _ _ _ tid st) as [[[]|e] st1]; [apply IH|done].
  - rewrite filter_cons_False by done. simpl. unfold mbind, M_bind.
    rewrite run_tests_task_skipped by done. apply IH.
Qed.

(** C8: with an explicit subset, the run is the run of the suite from which
    the identifiers outside the subset have been removed; every call made
    and every path touched belongs to an identifier of the subset, and no
    task outside the subset is fetched. *)
Theorem explicit_subset_skips_others
    (w : world) (ids : list Z) (out_dir : string)
    (n_jobs : Z) (timeout task_timeout : option Z) (st : state) :
  let r := run_tests w (Some ids) out_dir n_jobs timeout task_timeout st in
  r = run_tests (with_suite w (filter (λ tid, tid ∈ ids) (suite_tasks w))) None
                out_dir n_jobs timeout task_timeout st ∧
  touches_only
    (λ c, c = CGetStudy "OpenML-CC18" "tasks" ∨
          ∃ tid, selected w (Some ids) tid ∧ suite_call w out_dir tid c)
    (λ p, ∃ tid, selected w (Some ids) tid ∧ suite_path w out_dir tid p)
    st r.2 ∧
  ∃ new, calls r.2 = calls st ++ new ∧ ∀ tid, tid ∉ ids → CGetTask tid ∉ new.
Proof.
  cbv zeta.
  pose proof (confined_run_tests w (Some ids) out_dir n_jobs timeout task_timeout st) as Hc.
  split; [|split; [exact Hc|]].
  - unfold run_tests, mbind, M_bind. simpl. rewrite for_each_subset. reflexivity.
  - destruct Hc as [(new & Hnew & Hall) _ _ _]. exists new. split; [done|].
    intros tid Hout Hin. rewrite Forall_forall in Hall.
    destruct (Hall _ Hin) as [?|(tid' & [_ Hsel] & [?|Hcall])]; [done| |done].
    by simplify_eq.
Qed.

(** The scenario of a suite of two tasks of which only the first is asked
    for: the second is neither fetched nor given a directory. *)
Lemma subset_scenario :
  let r := run_tests sample_world (Some [59]) "" 1 None None (State ∅ ∅ 0 [] []) in
  r.1 = Ok () ∧
  dirs r.2 = {["/iris"; "/iris/run0"; "/iris/run1"]} ∧
  dom (files r.2) =
    {[ "/iris/time.txt"; "/iris/logbook.txt"; "/iris/result.png";
       "/iris/ind-fitness.txt"; "/iris/graph0.png"; "/iris/graph1.png";
       "/iris/pipeline0.pickle"; "/iris/pipeline1.pickle";
       "/iris/run0/accuracy-score.txt"; "/iris/run1/accuracy-score.txt" ]} ∧
  omap (λ c, match c with CGetTask tid => Some tid | _ => None end) (calls r.2) = [59].
Proof. cbv zeta. repeat split; vm_compute; reflexivity. Qed.

(** * Resumability after a timeout *)

Lemma create_dir_check_exists (out_dir : string) (st : state) :
  out_dir ∈ dirs st →
  _create_dir_check out_dir st =
    (Ok false, State (dirs st) (files st) (clock st)
                     (stdout st ++ [collision_message out_dir]) (calls st)).
Proof.
  intros Hin. unfold _create_dir_check, try_except, mbind, M_bind, os_mkdir.
  by rewrite bool_decide_eq_true_2.
Qed.

Lemma create_dir_check_fresh (out_dir : string) (st : state) :
  out_dir ∉ dirs st → files st !! out_dir = None →
  parent_exists (dirs st) out_dir = true →
  _create_dir_check out_dir st =
    (Ok true, State ({[out_dir]} ∪ dirs st) (files st) (clock st) (stdout st) (calls st)).
Proof.
  intros Hd Hf Hp. unfold _create_dir_check, try_except, mbind, M_bind, os_mkdir.
  rewrite bool_decide_eq_false_2 by done.
  rewrite bool_decide_eq_false_2 by (rewrite Hf; by intros [? ?]).
  by rewrite Hp.
Qed.

Lemma run_tests_task_collision (w : world) (task_ids : option (list Z)) (out_dir : string)
    (n_jobs : Z) (timeout task_timeout : option Z) (tid : Z) (st : state) :
  not_skipped task_ids tid →
  "/" +:+ dataset_name (get_task w tid) ∈ dirs st →
  run_tests_task w task_ids out_dir n_jobs timeout task_timeout tid st =
    (Ok (), State (dirs st) (files st) (clock st + 0)
                  (stdout st ++ [collision_message ("/" +:+ dataset_name (get_task w tid))])
                  (calls st ++ [CGetTask tid; CGetDataset (task_id (get_task w tid))])).
Proof.
  intros Hsel Hin. unfold run_tests_task.
  assert (match task_ids with
          | Some ids => negb (bool_decide (tid ∈ ids)) | None => false end = false) as ->.
  { destruct task_ids; [|done]. by rewrite bool_decide_eq_true_2. }
  unfold mbind at 1. unfold M_bind, external, mbind, M_bind, record_call, elapse. simpl.
  rewrite create_dir_check_exists by done. simpl.
  by rewrite <-(assoc_L (++)).
Qed.

Lemma run_tests_task_no_refit (w : world) (task_ids : option (list Z)) (out_dir : string)
    (n_jobs : Z) (timeout task_timeout : option Z) (name : string) (tid : Z) (st : state) :
  "/" +:+ name ∈ dirs st →
  touches_only (no_fit_of name) (λ _, True) st
    (run_tests_task w task_ids out_dir n_jobs timeout task_timeout tid st).2.
Proof.
  intros Hin.
  destruct (decide (not_skipped task_ids tid)) as [Hsel|Hskip].
  - destruct (decide (dataset_name (get_task w tid) = name)) as [Hname|Hname].
    + rewrite run_tests_task_collision by (by rewrite ?Hname).
      split; simpl; [|done..]. eexists. split; [done|].
      repeat constructor; by intros ??.
    + eapply touches_only_weaken; [| |apply confined_run_tests_task]; [|done].
      intros c [->|Hc]; [by intros ??|].
      intros i clf ->. simpl in Hc. by destruct Hc.
  - destruct task_ids as [ids|]; [|done]. simpl in Hskip.
    rewrite run_tests_task_skipped by done. apply touches_only_refl.
Qed.

Lemma run_tests_no_refit (w : world) (task_ids : option (list Z)) (out_dir : string)
    (n_jobs : Z) (timeout task_timeout : option Z) (name : string) (st : state) :
  "/" +:+ name ∈ dirs st →
  touches_only (no_fit_of name) (λ _, True) st
    (run_tests w task_ids out_dir n_jobs timeout task_timeout st).2.
Proof.
  intros Hin. unfold run_tests, mbind, M_bind. simpl.
  eapply touches_only_trans.
  { apply (confined_record_call (no_fit_of name) (λ _, True)
             (CGetStudy "OpenML-CC18" "tasks")). by intros ??. }
  simpl.
  set (st0 := State _ _ _ _ _).
  assert ("/" +:+ name ∈ dirs st0) as Hin0 by done.
  clearbody st0. clear Hin st. revert st0 Hin0.
  induction (suite_tasks w) as [|tid l IH]; intros st Hin; simpl.
  { apply touches_only_refl. }
  pose proof (run_tests_task_no_refit w task_ids out_dir n_jobs timeout task_timeout
                name tid st Hin) as Hstep.
  unfold mbind, M_bind.
  destruct (run_tests_task w task_ids out_dir n_jobs timeout task_timeout tid st)
    as [[[]|e] st1]; simpl in *; [|done].
  eapply touches_only_trans; [exact Hstep|]. apply IH.
  by apply (touches_dirs_mono _ _ _ _ Hstep).
Qed.

Lemma run_tests_task_timeout (w : world) (task_ids : option (list Z)) (out_dir : string)
    (n_jobs : Z) (timeout : option Z) (d : Z) (tid : Z)
    (X : matrix) (categorical : list bool) (X' : matrix) (st : state) :
  let t := get_task w tid in
  let dataset_dir := "/" +:+ dataset_name t in
  not_skipped task_ids tid →
  dataset_dir ∉ dirs st → files st !! dataset_dir = None →
  parent_exists (dirs st) dataset_dir = true →
  get_data t = Ok (X, categorical) →
  fit_transform t (_conditional_imput X categorical) = Ok X' →
  d < fit_time t →
  run_tests_task w task_ids out_dir n_jobs timeout (Some d) tid st =
    (Ok (), State ({[dataset_dir]} ∪ dirs st) (files st)
                  (clock st + 0 + load_time t + impute_time t + d)
                  (stdout st ++ [timeout_message t])
                  (calls st ++ [CGetTask tid; CGetDataset (task_id t)]
                            ++ calls_until_fit t n_jobs timeout X categorical X')).
Proof.
  intros t dataset_dir Hsel Hd Hf Hp Hdata Himp Hlt. unfold run_tests_task.
  assert (match task_ids with
          | Some ids => negb (bool_decide (tid ∈ ids)) | None => false end = false) as ->.
  { destruct task_ids; [|done]. by rewrite bool_decide_eq_true_2. }
  unfold mbind at 1. unfold M_bind, external, mbind, M_bind, record_call, elapse. simpl.
  rewrite create_dir_check_fresh by done. simpl.
  erewrite run_task_fit_timeout by done. simpl.
  by rewrite <-!(assoc_L (++)).
Qed.

(** C10: when the fit of a task times out, the directory [/name] that the
    orchestrator created for its dataset exists afterwards, no file has been
    written, and that directory holds no file.  From then on, in any state
    in which the directory still exists, the orchestrator skips the task at
    the directory check (it only fetches it and prints the collision), a
    whole run never starts a fit on that dataset, and the directory is
    still there after the run: the task is not retried. *)
Theorem timed_out_task_is_never_retried
    (w : world) (task_ids : option (list Z)) (out_dir : string)
    (n_jobs : Z) (timeout : option Z) (d : Z) (tid : Z)
    (X : matrix) (categorical : list bool) (X' : matrix) (st : state) :
  let t := get_task w tid in
  let dataset_dir := "/" +:+ dataset_name t in
  not_skipped task_ids tid →
  files_in_dirs st →
  dataset_dir ∉ dirs st → files st !! dataset_dir = None →
  parent_exists (dirs st) dataset_dir = true →
  get_data t = Ok (X, categorical) →
  fit_transform t (_conditional_imput X categorical) = Ok X' →
  d < fit_time t →
  let r := run_tests_task w task_ids out_dir n_jobs timeout (Some d) tid st in
  r.1 = Ok () ∧
  dataset_dir ∈ dirs r.2 ∧
  files r.2 = files st ∧
  (∀ f, dirname f = Some dataset_dir → files r.2 !! f = None) ∧
  ∀ (st2 : state) (n_jobs2 : Z) (timeout2 task_timeout2 : option Z),
    dataset_dir ∈ dirs st2 →
    run_tests_task w task_ids out_dir n_jobs2 timeout2 task_timeout2 tid st2 =
      (Ok (), State (dirs st2) (files st2) (clock st2 + 0)
                    (stdout st2 ++ [collision_message dataset_dir])
                    (calls st2 ++ [CGetTask tid; CGetDataset (task_id t)])) ∧
    touches_only (no_fit_of (dataset_name t)) (λ _, True) st2
      (run_tests w task_ids out_dir n_jobs2 timeout2 task_timeout2 st2).2 ∧
    dataset_dir ∈ dirs (run_tests w task_ids out_dir n_jobs2 timeout2 task_timeout2 st2).2.
Proof.
  intros t dataset_dir Hsel Hwf Hd Hf Hp Hdata Himp Hlt r.
  subst r. rewrite (run_tests_task_timeout w task_ids out_dir n_jobs timeout d tid
                      X categorical X' st) by done.
  simpl. split; [done|]. split; [set_solver|]. split; [done|]. split.
  - intros f Hdir. destruct (files st !! f) eqn:Hfile; [|done].
    destruct (Hwf f dataset_dir) as [Hroot|Hin]; [by rewrite Hfile|done| |done].
    discriminate Hroot.
  - intros st2 n_jobs2 timeout2 task_timeout2 Hin2.
    pose proof (run_tests_no_refit w task_ids out_dir n_jobs2 timeout2 task_timeout2
                  (dataset_name t) st2 Hin2) as Hrun.
    split; [by apply run_tests_task_collision|]. split; [exact Hrun|].
    by apply (touches_dirs_mono _ _ _ _ Hrun).
Qed.

Lemma timed_out_task_is_never_retried_witness :
  let r := run_tests_task sample_world None "" 1 None (Some 10) 59 (State ∅ ∅ 0 [] []) in
  r.1 = Ok () ∧
  "/iris" ∈ dirs r.2 ∧
  files r.2 = ∅ ∧
  (∀ f, dirname f = Some "/iris" → files r.2 !! f = None) ∧
  ∀ (st2 : state) (n_jobs2 : Z) (timeout2 task_timeout2 : option Z),
    "/iris" ∈ dirs st2 →
    run_tests_task sample_world None "" n_jobs2 timeout2 task_timeout2 59 st2 =
      (Ok (), State (dirs st2) (files st2) (clock st2 + 0)
                    (stdout st2 ++ [collision_message "/iris"])
                    (calls st2 ++ [CGetTask 59; CGetDataset 59])) ∧
    touches_only (no_fit_of "iris") (λ _, True) st2
      (run_tests sample_world None "" n_jobs2 timeout2 task_timeout2 st2).2 ∧
    "/iris" ∈ dirs (run_tests sample_world None "" n_jobs2 timeout2 task_timeout2 st2).2.
Proof.
  apply (timed_out_task_is_never_retried sample_world None "" 1 None 10 59
           (Matrix 150 4) [false; false; true; false] (Matrix 150 4)
           (State ∅ ∅ 0 [] [])).
  - exact I.
  - intros f dir [a Ha]. simpl in Ha. by rewrite lookup_empty in Ha.
  - simpl. apply not_elem_of_empty.
  - reflexivity.
  - reflexivity.
  - reflexivity.
  - reflexivity.
  - simpl. lia.
Defined.

(** * The artifacts of a completed fit *)

Lemma string_cons_app (c : ascii) (a b : string) :
  String c a +:+ b = String c (a +:+ b).
Proof. reflexivity. Qed.

Lemma dirname_child (d s : string) :
  dirname s = None → dirname (d +:+ String "/" s) = Some d.
Proof.
  intros Hs. induction d as [|c d IH].
  - change (dirname (String "/" s) = Some ""). simpl. by rewrite Hs.
  - rewrite string_cons_app. simpl. by rewrite IH.
Qed.

Lemma dirname_cons_None (c : ascii) (s : string) :
  dirname (String c s) = None ↔ c ≠ "/"%char ∧ dirname s = None.
Proof.
  simpl. destruct (dirname s) as [d|].
  - split; [done|]. by intros [_ ?].
  - destruct (decide (c = "/"%char)) as [Hc|Hc]; [|done].
    split; [done|]. by intros [? _].
Qed.

Lemma dirname_app_None (a b : string) :
  dirname a = None → dirname b = None → dirname (a +:+ b) = None.
Proof.
  intros Ha Hb. induction a as [|c a IH]; [done|].
  apply dirname_cons_None in Ha as [Hc Ha].
  rewrite string_cons_app. apply dirname_cons_None. auto.
Qed.

Lemma dirname_pretty_N_go (x : N) (s : string) :
  dirname s = None → dirname (pretty_N_go x s) = None.
Proof.
  revert s. induction (N.lt_wf_0 x) as [x _ IH]; intros s Hs.
  assert (x = 0 ∨ 0 < x)%N as [->|Hx] by lia.
  - by rewrite pretty_N_go_0.
  - rewrite pretty_N_go_step by done. apply IH.
    + by apply N.div_lt.
    + apply dirname_cons_None. split; [|done].
      unfold pretty_N_char. by repeat case_match.
Qed.

Lemma dirname_pretty_nat (i : nat) : dirname (pretty i) = None.
Proof.
  unfold pretty, pretty_nat, pretty, pretty_N.
  case_decide; [done|]. by apply dirname_pretty_N_go.
Qed.

Lemma parent_exists_child (ds : gset string) (d s : string) :
  dir_ok ds d → dirname s = None → parent_exists ds (d +:+ String "/" s) = true.
Proof.
  intros Hd Hs. unfold parent_exists. rewrite dirname_child by done.
  destruct d; [done|]. destruct Hd as [?|Hd]; [done|].
  by apply bool_decide_eq_true.
Qed.

Lemma append_length (a b : string) :
  String.length (a +:+ b) = (String.length a + String.length b)%nat.
Proof.
  induction a as [|c a IH]; [done|].
  rewrite string_cons_app. simpl. by rewrite IH.
Qed.

Lemma append_inj_r (a b c : string) : a +:+ c = b +:+ c → a = b.
Proof.
  revert b. induction a as [|x a IH]; intros [|y b] Heq.
  - done.
  - apply (f_equal String.length) in Heq.
    rewrite !append_length in Heq. simpl in Heq. lia.
  - apply (f_equal String.length) in Heq.
    rewrite !append_length in Heq. simpl in Heq. lia.
  - rewrite !string_cons_app in Heq. injection Heq as -> Heq. f_equal. by apply IH.
Qed.

Lemma pickle_path_inj (out_dir : string) (i j : nat) :
  pickle_path out_dir i = pickle_path out_dir j → i = j.
Proof.
  unfold pickle_path. intros Heq.
  apply (inj (String.append out_dir)) in Heq.
  apply (inj (String.append "/pipeline")) in Heq.
  apply append_inj_r in Heq. by apply (inj pretty).
Qed.

Section writes_files.
Context (d : string) (Q : string → Prop).

Lemma writes_files_ret : writes_files d Q (mret ()).
Proof. intros st _. exists (files st). split; [by destruct st|done]. Qed.

Lemma writes_files_bind (m k : M unit) :
  writes_files d Q m → writes_files d Q k → writes_files d Q (m ;; k).
Proof.
  intros Hm Hk st Hd. destruct (Hm st Hd) as (fs1 & E1 & F1).
  unfold mbind, M_bind. rewrite E1.
  destruct (Hk (State (dirs st) fs1 (clock st) (stdout st) (calls st)) Hd)
    as (fs2 & E2 & F2).
  exists fs2. split; [exact E2|]. intros p Hp. simpl in F2. rewrite F2, F1; done.
Qed.

Lemma writes_files_for_each {A} (l : list A) (body : A → M unit) :
  (∀ x, writes_files d Q (body x)) → writes_files d Q (for_each l body).
Proof.
  intros Hb. induction l as [|x l IH]; simpl.
  - apply writes_files_ret.
  - by apply writes_files_bind.
Qed.

Lemma writes_files_create (s : string) (a : artifact) :
  dirname s = None → Q (d +:+ String "/" s) →
  writes_files d Q (create_file (d +:+ String "/" s) a).
Proof.
  intros Hs Hq st Hd. unfold create_file. rewrite parent_exists_child by done.
  eexists. split; [done|]. intros p Hp. apply lookup_insert_ne.
  intros Heq. apply Hp. by rewrite <-Heq.
Qed.

Lemma writes_files_write (path : string) (l : line) :
  Q path → writes_files d Q (file_write path l).
Proof.
  intros Hq st Hd. unfold file_write.
  eexists. split; [done|]. intros p Hp. apply lookup_insert_ne. by intros ->.
Qed.

End writes_files.

Lemma log_evolution_split (w : world) (clf : fitted) (out_dir : string) (st : state) :
  _log_evolution w clf out_dir st =
  (log_evolution_texts clf out_dir ;;
   for_each (enumerate (take 5 (get_best_pipelines clf))) (pickle_one w out_dir)) st.
Proof.
  unfold _log_evolution, log_evolution_texts, mbind, M_bind.
  destruct (open_w _ st) as [[[]|e] s1]; [|done].
  destruct (file_write _ _ s1) as [[[]|e] s2]; [|done].
  destruct (export_plot _ _ s2) as [[[]|e] s3]; [|done].
  destruct (open_w _ s3) as [[[]|e] s4]; [|done].
  destruct (for_each _ _ s4) as [[[]|e] s5]; [|done].
  reflexivity.
Qed.

Lemma log_evolution_texts_writes (clf : fitted) (out_dir : string) :
  writes_files out_dir (log_path out_dir) (log_evolution_texts clf out_dir).
Proof.
  unfold log_evolution_texts, open_w, export_plot, create_graph, log_path.
  apply writes_files_bind; [apply writes_files_create; auto|].
  apply writes_files_bind; [apply writes_files_write; auto|].
  apply writes_files_bind; [apply writes_files_create; auto|].
  apply writes_files_bind; [apply writes_files_create; auto|].
  apply writes_files_for_each. intros [i ind].
  apply writes_files_bind; [apply writes_files_write; auto|].
  apply (writes_files_create out_dir _ ("graph" +:+ pretty i +:+ ".png")).
  - apply dirname_app_None; [done|].
    apply dirname_app_None; [apply dirname_pretty_nat|done].
  - do 3 right. by exists i.
Qed.

Lemma pickle_path_not_log_path (out_dir : string) (i : nat) :
  ¬ log_path out_dir (pickle_path out_dir i).
Proof.
  unfold log_path, pickle_path.
  intros [H|[H|[H|[j H]]]]; apply (inj (String.append out_dir)) in H; discriminate H.
Qed.

Lemma for_each_cons {A} (x : A) (l : list A) (body : A → M unit) (st : state) :
  for_each (x :: l) body st =
    match body x st with
    | (Ok _, st') => for_each l body st'
    | (Raise e, st') => (Raise e, st')
    end.
Proof. reflexivity. Qed.

Lemma pickle_one_run (w : world) (out_dir : string) (i : nat) (pipe : pipeline) (st : state) :
  dir_ok (dirs st) out_dir →
  pickle_one w out_dir (i, pipe) st =
    (Ok (), State (dirs st)
                  (<[pickle_path out_dir i := Pickled pipe (HIGHEST_PROTOCOL w)]>
                     (<[pickle_path out_dir i := Text []]> (files st)))
                  (clock st) (stdout st) (calls st)).
Proof.
  intros Hd. unfold pickle_one, open_w, mbind, M_bind, create_file.
  change (out_dir +:+ "/pipeline" +:+ pretty i +:+ ".pickle")
    with (out_dir +:+ String "/" ("pipeline" +:+ pretty i +:+ ".pickle")).
  rewrite parent_exists_child; [done|done|].
  apply dirname_app_None; [done|].
  apply dirname_app_None; [apply dirname_pretty_nat|done].
Qed.

Lemma pickle_loop (w : world) (out_dir : string) (l : list pipeline) (k : nat) (st : state) :
  dir_ok (dirs st) out_dir →
  ∃ fs,
    for_each (imap (λ j p, ((k + j)%nat, p)) l) (pickle_one w out_dir) st =
      (Ok (), State (dirs st) fs (clock st) (stdout st) (calls st)) ∧
    (∀ j pipe, l !! j = Some pipe →
       fs !! pickle_path out_dir (k + j) = Some (Pickled pipe (HIGHEST_PROTOCOL w))) ∧
    (∀ q, (∀ j, (j < length l)%nat → q ≠ pickle_path out_dir (k + j)) →
       fs !! q = files st !! q).
Proof.
  revert k st. induction l as [|x l IH]; intros k st Hd.
  { exists (files st). split; [by destruct st|]. split; [done|done]. }
  rewrite imap_cons, for_each_cons, pickle_one_run by done.
  rewrite (imap_ext _ (λ j p, ((S k + j)%nat, p)))
    by (intros; simpl; f_equal; lia).
  set (st1 := State _ _ _ _ _).
  destruct (IH (S k) st1 Hd) as (fs & E & Hin & Hout).
  exists fs. split; [exact E|]. split.
  - intros [|j] pipe Hl; simplify_eq/=.
    + rewrite Hout.
      * by rewrite lookup_insert_eq.
      * intros j _ Heq%pickle_path_inj. lia.
    + replace (k + S j)%nat with (S k + j)%nat by lia. by apply Hin.
  - intros q Hq. rewrite Hout.
    + simpl. rewrite !lookup_insert_ne; [done|..]; apply not_eq_sym, (Hq 0%nat); simpl; lia.
    + intros j Hj. replace (S k + j)%nat with (k + S j)%nat by lia.
      apply Hq. simpl. lia.
Qed.

(** C9, as stated, fails: the pipelines are pickled with protocol 5, the
    highest one of the interpreter, which an interpreter that stops at
    protocol 4 cannot load although it loads pickles of protocol 0; and
    when two candidates are returned no pipeline2.pickle is written. *)
Lemma pickle_protocol_is_not_the_most_compatible :
  let r := _log_evolution sample_world sample_fitted "/iris" iris_dir_only in
  r.1 = Ok () ∧
  files r.2 !! "/iris/pipeline0.pickle" =
    Some (Pickled (Candidate 0) (HIGHEST_PROTOCOL sample_world)) ∧
  ¬ maximally_compatible (HIGHEST_PROTOCOL sample_world) (HIGHEST_PROTOCOL sample_world) ∧
  maximally_compatible (HIGHEST_PROTOCOL sample_world) 0 ∧
  files r.2 !! "/iris/pipeline2.pickle" = None.
Proof.
  cbv zeta. split; [vm_compute; reflexivity|]. split; [vm_compute; reflexivity|].
  split; [|split; [|vm_compute; reflexivity]].
  - intros [_ H]. specialize (H 0 4 eq_refl eq_refl). discriminate H.
  - split; [reflexivity|]. intros q h _ Hq. unfold loads in *.
    apply andb_true_iff in Hq as [?%Z.leb_le ?%Z.leb_le].
    apply andb_true_iff. split; apply Z.leb_le; lia.
Qed.

(** C9, amended: after a completed fit, each of the ranked candidates of
    rank i < 5 that the classifier returned (the full pipeline object) is
    pickled to pipeline{i}.pickle with pickle.HIGHEST_PROTOCOL, the highest
    protocol the running interpreter supports; no pickle is written for a
    rank of 5 or more, nor for a rank the classifier did not return. *)
Theorem log_evolution_pickles_top5
    (w : world) (clf : fitted) (out_dir : string) (st : state) :
  dir_ok (dirs st) out_dir →
  let r := _log_evolution w clf out_dir st in
  r.1 = Ok () ∧
  (∀ i pipe, (i < 5)%nat → get_best_pipelines clf !! i = Some pipe →
     files r.2 !! pickle_path out_dir i = Some (Pickled pipe (HIGHEST_PROTOCOL w))) ∧
  (∀ i, (5 ≤ i)%nat ∨ (length (get_best_pipelines clf) ≤ i)%nat →
     files r.2 !! pickle_path out_dir i = files st !! pickle_path out_dir i) ∧
  (∀ q, loads (HIGHEST_PROTOCOL w) q = true → q ≤ HIGHEST_PROTOCOL w).
Proof.
  intros Hd. cbv zeta. rewrite log_evolution_split. unfold mbind, M_bind.
  destruct (log_evolution_texts_writes clf out_dir st Hd) as (fs1 & -> & F1).
  set (st1 := State _ _ _ _ _).
  destruct (pickle_loop w out_dir (take 5 (get_best_pipelines clf)) 0 st1 Hd)
    as (fs & E & Hin & Hout).
  assert (for_each (enumerate (take 5 (get_best_pipelines clf))) (pickle_one w out_dir) st1
          = (Ok (), State (dirs st1) fs (clock st1) (stdout st1) (calls st1))) as ->
    by exact E.
  simpl.
  split; [done|]. split; [|split].
  - intros i pipe Hi Hl. apply (Hin i). by rewrite lookup_take_lt.
  - intros i Hi. rewrite Hout.
    + apply F1, pickle_path_not_log_path.
    + intros j Hj Heq%pickle_path_inj. rewrite length_take in Hj. lia.
  - intros q [_ ?%Z.leb_le]%andb_true_iff. done.
Qed.

Lemma log_evolution_pickles_top5_witness :
  let r := _log_evolution sample_world sample_fitted "/iris" iris_dir_only in
  r.1 = Ok () ∧
  (∀ i pipe, (i < 5)%nat → get_best_pipelines sample_fitted !! i = Some pipe →
     files r.2 !! pickle_path "/iris" i = Some (Pickled pipe 5)) ∧
  (∀ i, (5 ≤ i)%nat ∨ (length (get_best_pipelines sample_fitted) ≤ i)%nat →
     files r.2 !! pickle_path "/iris" i = files iris_dir_only !! pickle_path "/iris" i) ∧
  (∀ q, loads 5 q = true → q ≤ 5).
Proof.
  apply (log_evolution_pickles_top5 sample_world sample_fitted "/iris" iris_dir_only).
  right. simpl. by apply elem_of_singleton.
Defined.

(** * Directory collisions *)

(** One step of the re-evaluation loop of [run_task] in a state where the
    candidate's directory exists: the collision is printed and the
    evaluation goes ahead. *)
Lemma reevaluation_step_on_collision
    (t : task) (pipe : pipeline) (pipe_dir : string) (imputer : ColumnTransformer)
    (st : state) :
  pipe_dir ∈ dirs st →
  (_create_dir_check pipe_dir ;; evaluate_pipeline pipe t pipe_dir (Some imputer)) st =
  evaluate_pipeline pipe t pipe_dir (Some imputer)
    (State (dirs st) (files st) (clock st)
           (stdout st ++ [collision_message pipe_dir]) (calls st)).
Proof.
  intros Hin. unfold mbind at 1. unfold M_bind.
  by rewrite create_dir_check_exists.
Qed.

(** C2: when [run0] already exists, [_create_dir_check] prints the
    collision and returns False, but [run_task] does not look at what it
    returns: the candidate of rank 0 is evaluated all the same, its run is
    stored in [run0] and its accuracy file is written there. *)
Theorem existing_run_dir_is_evaluated_again :
  let r := run_task sample_world iris "/iris" 1 None None iris_run0_done in
  let imputer := _conditional_imput (Matrix 150 4) [false; false; true; false] in
  _create_dir_check "/iris/run0" iris_run0_done =
    (Ok false, State (dirs iris_run0_done) (files iris_run0_done) 0
                     [collision_message "/iris/run0"] []) ∧
  r.1 = Ok () ∧
  stdout r.2 = [collision_message "/iris/run0"] ∧
  run_model_pipes (calls r.2) =
    [Pipeline imputer (Candidate 0); Pipeline imputer (Candidate 1)] ∧
  to_filesystem_dirs (calls r.2) = ["/iris/run0"; "/iris/run1"] ∧
  files r.2 !! "/iris/run0/accuracy-score.txt" = Some (Text [ScoreLine [0.5%float]]).
Proof. cbv zeta. repeat split; vm_compute; reflexivity. Qed.

(** C3: the directory that [run_tests] checks and creates is [/name], not
    [out_dir/name] where [run_task] writes.  With the output root [out]:
    the directory created is [/iris], and the first write into the missing
    [out/iris] fails after the fit; a task whose artifacts are in
    [out/iris] is not skipped but fitted again and its files replaced; and a
    task is skipped because [/iris] exists although [out/iris] does not. *)
Theorem dataset_dir_check_ignores_out_dir :
  let run := run_tests sample_world (Some [59]) "out" 1 None None in
  (run out_only).1 = Raise FileNotFoundError ∧
  dirs (run out_only).2 = {["out"; "/iris"]} ∧
  files (run out_only).2 = ∅ ∧
  (run out_iris_done).1 = Ok () ∧
  stdout (run out_iris_done).2 = [] ∧
  files (run out_iris_done).2 !! "out/iris/time.txt" = Some (Text [ElapsedTimeLine 20]) ∧
  dirs (run out_iris_done).2 =
    {["out"; "out/iris"; "/iris"; "out/iris/run0"; "out/iris/run1"]} ∧
  run root_iris_only =
    (Ok (), State {["out"; "/iris"]} ∅ 0 [collision_message "/iris"]
                  [CGetStudy "OpenML-CC18" "tasks"; CGetTask 59; CGetDataset 59]).
Proof. cbv zeta. repeat split; vm_compute; reflexivity. Qed.

(** * The dataset loaders *)

Lemma load_functions_keys (cwd : gset string) (name : string) :
  is_Some (load_functions cwd !! name) ↔
  name ∈ ["iris"; "digits"; "wine"; "breast_cancer"; "wilt"].
Proof.
  unfold load_functions. rewrite !elem_of_cons, elem_of_nil.
  rewrite !lookup_insert_is_Some, lookup_singleton_is_Some.
  split.
  - intros [<-|[_ [<-|[_ [<-|[_ [<-|[_ <-]]]]]]]]; auto 10.
  - intros [->|[->|[->|[->|[->|[]]]]]]; auto 10.
Qed.

(** X1: the names [load_dataset] accepts are exactly the five keys of
    [load_functions], compared letter for letter: for any other name, among
    them the regression datasets 'diabetes' and 'boston' that its docstring
    lists, it raises ValueError, and for a key it never takes that branch
    but hands [random_state] to the loader stored under the key. *)
Theorem load_dataset_unknown_name
    (cwd : gset string) (dataset_name : string) (random_state : Z) :
  (dataset_name ∉ ["iris"; "digits"; "wine"; "breast_cancer"; "wilt"] →
     load_dataset cwd dataset_name random_state = Raise ValueError) ∧
  (dataset_name ∈ ["iris"; "digits"; "wine"; "breast_cancer"; "wilt"] →
     ∃ load, load_functions cwd !! dataset_name = Some load ∧
             load_dataset cwd dataset_name random_state =
               match load random_state with
               | Ok (a, b, c, d) => Ok (a, c, b, d)
               | Raise e => Raise e
               end) ∧
  load_dataset cwd "diabetes" random_state = Raise ValueError ∧
  load_dataset cwd "boston" random_state = Raise ValueError ∧
  load_dataset cwd "Iris" random_state = Raise ValueError ∧
  load_dataset cwd "" random_state = Raise ValueError.
Proof.
  rewrite <-load_functions_keys. unfold load_dataset.
  split; [|split; [|by repeat split]].
  - intros Hn. destruct (load_functions cwd !! dataset_name) as [load|] eqn:Hl; [|done].
    destruct Hn. by exists load.
  - intros [load Hl]. exists load. rewrite Hl. split; [done|].
    by destruct (load random_state) as [[[[a b] c] d]|e].
Qed.




(** * What the harness never undoes *)

Section steps.
Context (R : relation state) `{!PreOrder R}.

Lemma steps_ret {A} (a : A) : steps R (mret a).
Proof. intros st. reflexivity. Qed.

Lemma steps_raise {A} (e : exn) : steps R (@raise A e).
Proof. intros st. reflexivity. Qed.

Lemma steps_pure {A} (r : outcome A) : steps R (λ st, (r, st)).
Proof. intros st. reflexivity. Qed.

Lemma steps_time_time : steps R time_time.
Proof. intros st. reflexivity. Qed.

Lemma steps_bind {A B} (m : M A) (f : A → M B) :
  steps R m → (∀ a, steps R (f a)) → steps R (m ≫= f).
Proof.
  intros Hm Hf st. specialize (Hm st). unfold mbind, M_bind.
  destruct (m st) as [[a|e] st1]; simpl in *; [|done].
  etrans; [done|]. apply Hf.
Qed.

Lemma steps_try_except {A} (body : M A) (handler : exn → option (M A)) :
  steps R body → (∀ e h, handler e = Some h → steps R h) →
  steps R (try_except body handler).
Proof.
  intros Hm Hh st. specialize (Hm st). unfold try_except.
  destruct (body st) as [[a|e] st1]; simpl in *; [done|].
  destruct (handler e) as [h|] eqn:He; [|done].
  etrans; [done|]. by eapply Hh.
Qed.

Lemma steps_for_each {A} (l : list A) (body : A → M unit) :
  (∀ x, steps R (body x)) → steps R (for_each l body).
Proof.
  intros Hb. induction l as [|x l IH]; simpl.
  - apply steps_ret.
  - apply steps_bind; [apply Hb|]. intros _. apply IH.
Qed.

Context (HR : primitives_keep R).

Lemma steps_external {A} (c : call) (d : Z) (r : outcome A) : steps R (external c d r).
Proof.
  unfold external.
  apply steps_bind; [apply (keep_record_call R HR)|]. intros _.
  apply steps_bind; [apply (keep_elapse R HR)|]. intros _. apply steps_pure.
Qed.

Lemma steps_with_Timeout {A} (s : option Z) (c : call) (d : Z) (r : outcome A) :
  steps R (with_Timeout s c d r).
Proof.
  unfold with_Timeout. destruct s as [s|]; [destruct (s <? d)|]; apply steps_external.
Qed.

Lemma steps_create_dir_check (out_dir : string) : steps R (_create_dir_check out_dir).
Proof.
  unfold _create_dir_check. apply steps_try_except.
  - apply steps_bind; [apply (keep_os_mkdir R HR)|]. intros _. apply steps_ret.
  - intros e h He. destruct e; simplify_eq/=.
    + apply steps_bind; [apply (keep_print R HR)|]. intros _. apply steps_ret.
    + apply steps_bind; [apply (keep_print R HR)|]. intros _. apply steps_raise.
Qed.

Lemma steps_evaluate_pipeline (pipe : pipeline) (t : task) (out_dir : string)
    (pre : option ColumnTransformer) :
  steps R (evaluate_pipeline pipe t out_dir pre).
Proof.
  unfold evaluate_pipeline, open_w.
  apply steps_bind; [apply steps_external|]. intros r.
  apply steps_bind; [apply (keep_record_call R HR)|]. intros _.
  apply steps_bind; [apply (keep_create_file R HR)|]. intros _.
  apply (keep_file_write R HR).
Qed.

Lemma steps_log_evolution (w : world) (clf : fitted) (out_dir : string) :
  steps R (_log_evolution w clf out_dir).
Proof.
  unfold _log_evolution, export_plot, create_graph, open_w.
  apply steps_bind; [apply (keep_create_file R HR)|]. intros _.
  apply steps_bind; [apply (keep_file_write R HR)|]. intros _.
  apply steps_bind; [apply (keep_create_file R HR)|]. intros _.
  apply steps_bind; [apply (keep_create_file R HR)|]. intros _.
  apply steps_bind.
  - apply steps_for_each. intros [i ind].
    apply steps_bind; [apply (keep_file_write R HR)|]. intros _.
    apply (keep_create_file R HR).
  - intros _. apply steps_for_each. intros [i pipe].
    apply steps_bind; [apply (keep_create_file R HR)|]. intros _.
    apply (keep_pickle_dump R HR).
Qed.

Lemma steps_run_task (w : world) (t : task) (out_dir : string)
    (n_jobs : Z) (timeout task_timeout : option Z) :
  steps R (run_task w t out_dir n_jobs timeout task_timeout).
Proof.
  unfold run_task, open_w.
  apply steps_bind; [apply (keep_record_call R HR)|]. intros _.
  apply steps_bind; [apply steps_external|]. intros [X categorical].
  apply steps_bind; [apply steps_external|]. intros X'.
  apply steps_bind; [apply steps_time_time|]. intros start_time.
  apply steps_bind.
  - apply steps_try_except.
    + apply steps_bind; [apply steps_with_Timeout|]. intros ?. apply steps_ret.
    + intros e h He. destruct e; simplify_eq/=.
      apply steps_bind; [apply (keep_print R HR)|]. intros _. apply steps_ret.
  - intros [clf|]; [|apply steps_ret].
    apply steps_bind; [apply steps_time_time|]. intros now.
    apply steps_bind; [apply (keep_create_file R HR)|]. intros _.
    apply steps_bind; [apply (keep_file_write R HR)|]. intros _.
    apply steps_bind; [apply steps_log_evolution|]. intros _.
    apply steps_for_each. intros [i pipe].
    apply steps_bind; [apply steps_create_dir_check|]. intros _.
    apply steps_evaluate_pipeline.
Qed.

Lemma steps_run_tests_task (w : world) (task_ids : option (list Z)) (out_dir : string)
    (n_jobs : Z) (timeout task_timeout : option Z) (tid : Z) :
  steps R (run_tests_task w task_ids out_dir n_jobs timeout task_timeout tid).
Proof.
  unfold run_tests_task. destruct (match task_ids with Some _ => _ | None => _ end).
  { apply steps_ret. }
  apply steps_bind; [apply steps_external|]. intros t.
  apply steps_bind; [apply (keep_record_call R HR)|]. intros _.
  apply steps_bind; [apply steps_create_dir_check|]. intros [|]; simpl.
  - apply steps_run_task.
  - apply steps_ret.
Qed.

Lemma steps_run_tests (w : world) (task_ids : option (list Z)) (out_dir : string)
    (n_jobs : Z) (timeout task_timeout : option Z) :
  steps R (run_tests w task_ids out_dir n_jobs timeout task_timeout).
Proof.
  unfold run_tests.
  apply steps_bind; [apply (keep_record_call R HR)|]. intros _.
  apply steps_for_each. intros tid. apply steps_run_tests_task.
Qed.

End steps.

Lemma primitives_grow : primitives_keep grows.
Proof.
  split.
  - intros s st. split; simpl; [done|done| |done]. by apply prefix_app_r.
  - intros c st. split; simpl; [done|done|done|]. by apply prefix_app_r.
  - intros d st. by split.
  - intros path st. unfold os_mkdir.
    destruct (_ || _); [done|]. destruct (parent_exists _ _); [|done].
    split; simpl; [set_solver|done..].
  - intros path a st. unfold create_file. destruct (parent_exists _ _); [|done].
    split; simpl; [done| |done..].
    intros p Hp. rewrite lookup_insert_is_Some. destruct (decide (path = p)); auto.
  - intros path l st. split; simpl; [done| |done..].
    intros p Hp. rewrite lookup_insert_is_Some. destruct (decide (path = p)); auto.
  - intros obj path protocol st. split; simpl; [done| |done..].
    intros p Hp. rewrite lookup_insert_is_Some. destruct (decide (path = p)); auto.
Qed.

Lemma grows_path_exists (st st' : state) (p : string) :
  grows st st' → path_exists st p → path_exists st' p.
Proof.
  intros [Hd Hf _ _] [Hin|Hfile]; [left; set_solver|right; auto].
Qed.

(** X4: a run of the suite never removes a directory or a file, and only
    appends to the standard output and to the log of calls, whether it
    returns or stops with an exception; the same holds for the processing
    of one task. *)
Theorem run_tests_only_adds
    (w : world) (task_ids : option (list Z)) (out_dir : string)
    (n_jobs : Z) (timeout task_timeout : option Z) (t : task) (st : state) :
  grows st (run_tests w task_ids out_dir n_jobs timeout task_timeout st).2 ∧
  grows st (run_task w t out_dir n_jobs timeout task_timeout st).2.
Proof.
  split.
  - apply (steps_run_tests grows primitives_grow).
  - apply (steps_run_task grows primitives_grow).
Qed.

(** * The directory check *)

Lemma create_dir_check_cases (out_dir : string) (st : state) :
  _create_dir_check out_dir st =
    if decide (path_exists st out_dir)
    then (Ok false, printed st (collision_message out_dir))
    else if parent_exists (dirs st) out_dir
    then (Ok true, State ({[out_dir]} ∪ dirs st) (files st) (clock st)
                         (stdout st) (calls st))
    else (Raise FileNotFoundError, printed st cannot_create_message).
Proof.
  unfold _create_dir_check, try_except, mbind, M_bind, os_mkdir.
  destruct (decide (path_exists st out_dir)) as [[Hd|Hf]|Hn].
  - by rewrite bool_decide_eq_true_2.
  - rewrite (bool_decide_eq_true_2 (is_Some _)) by done. by rewrite orb_true_r.
  - rewrite !bool_decide_eq_false_2; [|intros ?; apply Hn; by right
                                       |intros ?; apply Hn; by left].
    simpl. by destruct (parent_exists _ _).
Qed.

Lemma create_dir_check_leaves_path (out_dir : string) (st st1 : state) (created : bool) :
  _create_dir_check out_dir st = (Ok created, st1) → path_exists st1 out_dir.
Proof.
  rewrite create_dir_check_cases. intros Hr.
  destruct (decide (path_exists st out_dir)) as [Hp|Hn]; simplify_eq; [done|].
  destruct (parent_exists _ _); simplify_eq. left. simpl.
  by apply elem_of_union_l, elem_of_singleton.
Qed.

(** X5: when [_create_dir_check] returns, something is at the path
    afterwards; it returned True exactly when nothing was there before;
    no file was touched; and from then on, whatever the harness adds to the
    file system, a further check of the same path returns False, prints the
    collision and changes neither directories nor files. *)
Theorem create_dir_check_returns
    (out_dir : string) (st st1 : state) (created : bool) :
  _create_dir_check out_dir st = (Ok created, st1) →
  path_exists st1 out_dir ∧
  (created = true ↔ ¬ path_exists st out_dir) ∧
  files st1 = files st ∧
  ∀ st2, grows st1 st2 →
    _create_dir_check out_dir st2 =
      (Ok false, printed st2 (collision_message out_dir)).
Proof.
  intros Hr. pose proof (create_dir_check_leaves_path _ _ _ _ Hr) as Hex.
  rewrite create_dir_check_cases in Hr.
  split; [done|]. split; [|split].
  - destruct (decide (path_exists st out_dir)) as [Hp|Hn]; simplify_eq; [naive_solver|].
    destruct (parent_exists _ _); by simplify_eq.
  - destruct (decide (path_exists st out_dir)) as [Hp|Hn]; simplify_eq; [done|].
    destruct (parent_exists _ _); by simplify_eq.
  - intros st2 Hg. rewrite create_dir_check_cases.
    rewrite decide_True; [done|]. by eapply grows_path_exists.
Qed.

Lemma create_dir_check_returns_witness :
  path_exists (State {["/iris"]} ∅ 0 [] []) "/iris" ∧
  (true = true ↔ ¬ path_exists (State ∅ ∅ 0 [] []) "/iris") ∧
  files (State {["/iris"]} ∅ 0 [] []) = files (State ∅ ∅ 0 [] []) ∧
  ∀ st2, grows (State {["/iris"]} ∅ 0 [] []) st2 →
    _create_dir_check "/iris" st2 =
      (Ok false, printed st2 (collision_message "/iris")).
Proof.
  apply (create_dir_check_returns "/iris" (State ∅ ∅ 0 [] []) (State {["/iris"]} ∅ 0 [] [])
           true).
  vm_compute. reflexivity.
Defined.



(** * A second run of the suite *)

Lemma run_tests_task_not_skipped (w : world) (task_ids : option (list Z))
    (out_dir : string) (n_jobs : Z) (timeout task_timeout : option Z) (tid : Z)
    (st : state) :
  not_skipped task_ids tid →
  run_tests_task w task_ids out_dir n_jobs timeout task_timeout tid st =
    let st' := State (dirs st) (files st) (clock st + 0) (stdout st)
                     (calls st ++ [CGetTask tid;
                                   CGetDataset (task_id (get_task w tid))]) in
    match _create_dir_check (dataset_dir w tid) st' with
    | (Ok true, st'') =>
        run_task w (get_task w tid) (out_dir +:+ dataset_dir w tid)
                 n_jobs timeout task_timeout st''
    | (Ok false, st'') => (Ok (), st'')
    | (Raise e, st'') => (Raise e, st'')
    end.
Proof.
  intros Hsel. unfold run_tests_task.
  assert (match task_ids with
          | Some ids => negb (bool_decide (tid ∈ ids)) | None => false end = false) as ->.
  { destruct task_ids; [|done]. by rewrite bool_decide_eq_true_2. }
  unfold mbind at 1. unfold M_bind, external, mbind, M_bind, record_call, elapse. simpl.
  rewrite <-(assoc_L (++)). simpl.
  destruct (_create_dir_check _ _) as [[[|]|e] st'']; reflexivity.
Qed.

Lemma run_tests_task_leaves_dir (w : world) (task_ids : option (list Z))
    (out_dir : string) (n_jobs : Z) (timeout task_timeout : option Z) (tid : Z)
    (st st1 : state) :
  not_skipped task_ids tid →
  run_tests_task w task_ids out_dir n_jobs timeout task_timeout tid st = (Ok (), st1) →
  path_exists st1 (dataset_dir w tid).
Proof.
  intros Hsel. rewrite run_tests_task_not_skipped by done. cbv zeta.
  destruct (_create_dir_check _ _) as [[created|e] st''] eqn:Hc; [|done].
  apply create_dir_check_leaves_path in Hc as Hex.
  destruct created.
  - intros Hrun. eapply grows_path_exists; [|exact Hex].
    pose proof (steps_run_task grows primitives_grow w (get_task w tid)
                  (out_dir +:+ dataset_dir w tid) n_jobs timeout task_timeout st'') as Hg.
    by rewrite Hrun in Hg.
  - by intros [= <-].
Qed.

Lemma run_tests_task_collision_path (w : world) (task_ids : option (list Z))
    (out_dir : string) (n_jobs : Z) (timeout task_timeout : option Z) (tid : Z)
    (st : state) :
  not_skipped task_ids tid →
  path_exists st (dataset_dir w tid) →
  run_tests_task w task_ids out_dir n_jobs timeout task_timeout tid st =
    (Ok (), State (dirs st) (files st) (clock st)
                  (stdout st ++ collisions w [tid]) (calls st ++ fetches w [tid])).
Proof.
  intros Hsel Hex. rewrite run_tests_task_not_skipped by done. cbv zeta.
  rewrite create_dir_check_cases, decide_True by done.
  unfold printed. simpl. by rewrite Z.add_0_r.
Qed.





(** * An exception ends the suite *)

Lemma for_each_app_raise {A} (l1 l2 : list A) (x : A) (body : A → M unit)
    (e : exn) (st st1 st2 : state) :
  for_each l1 body st = (Ok (), st1) →
  body x st1 = (Raise e, st2) →
  for_each (l1 ++ x :: l2) body st = (Raise e, st2).
Proof.
  revert st. induction l1 as [|y l1 IH]; intros st Hl1 Hx.
  - change ((Ok (), st) = (Ok (), st1)) in Hl1. injection Hl1 as ->.
    rewrite app_nil_l, for_each_cons. by rewrite Hx.
  - rewrite for_each_cons in Hl1. rewrite <-app_comm_cons, for_each_cons.
    destruct (body y st) as [[[]|e'] s]; [|done]. by apply IH.
Qed.

(** X8: an exception that leaves the processing of one task ends the whole
    run with that exception and in the state in which it was raised: when
    the run over the identifiers that precede the task returns and the task
    then raises, the run over any longer suite raises the same, and the
    identifiers that follow are not looked at. *)
Theorem suite_stops_at_first_exception
    (w : world) (task_ids : option (list Z)) (out_dir : string)
    (n_jobs : Z) (timeout task_timeout : option Z)
    (before : list Z) (tid : Z) (e : exn) (st st1 st2 : state) :
  run_tests (with_suite w before) task_ids out_dir n_jobs timeout task_timeout st
    = (Ok (), st1) →
  run_tests_task w task_ids out_dir n_jobs timeout task_timeout tid st1
    = (Raise e, st2) →
  ∀ after,
    run_tests (with_suite w (before ++ tid :: after)) task_ids out_dir
              n_jobs timeout task_timeout st
      = (Raise e, st2).
Proof.
  intros Hbefore Htid after. unfold run_tests, mbind, M_bind in *. simpl in *.
  by eapply (for_each_app_raise before after tid
               (run_tests_task w task_ids out_dir n_jobs timeout task_timeout)).
Qed.

Lemma suite_stops_at_first_exception_witness :
  run_tests (with_suite sample_world ([59] ++ 7 :: [59; 7; 3])) None ""
            1 None None (State ∅ ∅ 0 [] [])
    = (Raise (OtherError "ValueError"),
       (run_tests_task sample_world None "" 1 None None 7 after_first_run).2).
Proof.
  refine (suite_stops_at_first_exception sample_world None "" 1 None None
            [59] 7 (OtherError "ValueError") (State ∅ ∅ 0 [] []) after_first_run
            (run_tests_task sample_world None "" 1 None None 7 after_first_run).2
            _ _ [59; 7; 3]).
  - vm_compute. reflexivity.
  - vm_compute. reflexivity.
Defined.

(** * How the fits are configured *)




(** * After the fit *)

Section after_fit.
Context (w : world) (t : task) (out_dir : string).
Context (n_jobs : Z) (timeout task_timeout : option Z).
Context (X : matrix) (categorical : list bool) (X' : matrix) (clf : fitted).
Hypothesis loaded : get_data t = Ok (X, categorical).
Hypothesis imputed : fit_transform t (_conditional_imput X categorical) = Ok X'.
Hypothesis fitted_ok : clf_fit t (task_clf n_jobs timeout X') X' = Ok clf.
Hypothesis in_time : within_deadline t task_timeout.

Lemma run_task_fit_returns (st : state) :
  run_task w t out_dir n_jobs timeout task_timeout st =
    record_and_reevaluate w t clf out_dir (_conditional_imput X categorical)
      (fit_time t) (fit_done t n_jobs timeout X categorical X' st).
Proof.
  unfold run_task, with_Timeout, record_and_reevaluate, fit_done.
  assert (match task_timeout with
          | Some s => (s <? fit_time t) = false | None => True end) as Hlt.
  { unfold within_deadline in in_time. destruct task_timeout; [|done].
    apply Z.ltb_ge. lia. }
  unfold mbind at 1 2 3 4 5. unfold M_bind at 1 2 3 4 5.
  unfold external, try_except, record_call, elapse, time_time, mbind, M_bind.
  simpl. rewrite loaded. simpl. rewrite imputed. simpl.
  destruct task_timeout as [s|]; [rewrite Hlt|]; simpl;
    fold (task_clf n_jobs timeout X'); rewrite fitted_ok; simpl;
    rewrite <-!(assoc_L (++)); simpl;
    replace (clock st + load_time t + impute_time t + fit_time t -
             (clock st + load_time t + impute_time t)) with (fit_time t) by lia;
    reflexivity.
Qed.
End after_fit.

Lemma not_time_file_app (out_dir rest : string) :
  rest ≠ "/time.txt" → not_time_file out_dir (out_dir +:+ rest).
Proof. intros Hr. by exists rest. Qed.

Lemma time_file_is_time_file (out_dir : string) :
  ¬ not_time_file out_dir (out_dir +:+ "/time.txt").
Proof.
  intros (rest & Heq & Hr). apply (inj (String.append out_dir)) in Heq. by subst.
Qed.

Lemma confined_after_time_file (w : world) (t : task) (clf : fitted)
    (out_dir : string) (imputer : ColumnTransformer) :
  confined (λ _, True) (not_time_file out_dir)
    (_log_evolution w clf out_dir ;;
     for_each (enumerate (take 5 (get_best_pipelines clf)))
       (λ '(i, pipe),
          let pipe_dir := out_dir +:+ "/run" +:+ pretty i in
          _create_dir_check pipe_dir ;;
          evaluate_pipeline pipe t pipe_dir (Some imputer))).
Proof.
  apply confined_bind.
  - unfold _log_evolution, export_plot, create_graph, open_w.
    apply confined_bind; [by apply confined_create_file, not_time_file_app|]. intros _.
    apply confined_bind; [by apply confined_file_write, not_time_file_app|]. intros _.
    apply confined_bind; [by apply confined_create_file, not_time_file_app|]. intros _.
    apply confined_bind; [by apply confined_create_file, not_time_file_app|]. intros _.
    apply confined_bind.
    + apply confined_for_each. intros [i ind] _.
      apply confined_bind; [by apply confined_file_write, not_time_file_app|]. intros _.
      apply confined_create_file, not_time_file_app. discriminate.
    + intros _. apply confined_for_each. intros [i pipe] _.
      apply confined_bind; [apply confined_create_file, not_time_file_app; discriminate|].
      intros _. apply confined_pickle_dump, not_time_file_app. discriminate.
  - intros _. apply confined_for_each. intros [i pipe] _. cbv zeta.
    apply confined_bind.
    + apply confined_create_dir_check, not_time_file_app. discriminate.
    + intros _. apply confined_evaluate_pipeline; [done..|].
      rewrite append_assoc. apply not_time_file_app. discriminate.
Qed.

(** X10: an exception raised while the data of a task is loaded or imputed,
    a TimeoutException included, leaves [run_task] as it is: no fit is
    started, nothing is printed and no directory or file changes. *)
Theorem run_task_load_failure
    (w : world) (t : task) (out_dir : string) (n_jobs : Z)
    (timeout task_timeout : option Z) (e : exn) (st : state) :
  (get_data t = Raise e →
     run_task w t out_dir n_jobs timeout task_timeout st =
       (Raise e, State (dirs st) (files st) (clock st + load_time t) (stdout st)
                       (calls st ++ [CGetDataset (task_id t); CGetData (task_id t)]))) ∧
  (∀ X categorical,
     get_data t = Ok (X, categorical) →
     fit_transform t (_conditional_imput X categorical) = Raise e →
     run_task w t out_dir n_jobs timeout task_timeout st =
       (Raise e, State (dirs st) (files st)
                       (clock st + load_time t + impute_time t) (stdout st)
                       (calls st ++ [CGetDataset (task_id t); CGetData (task_id t);
                                     CFitTransform (task_id t)
                                       (_conditional_imput X categorical)]))).
Proof.
  split.
  - intros Hdata. unfold run_task, mbind, M_bind, external, record_call, elapse.
    simpl. rewrite Hdata. simpl. by rewrite <-(assoc_L (++)).
  - intros X categorical Hdata Himp.
    unfold run_task, mbind, M_bind, external, record_call, elapse.
    simpl. rewrite Hdata. simpl. rewrite Himp. simpl. by rewrite <-!(assoc_L (++)).
Qed.

Lemma run_task_load_failure_witness :
  run_task sample_world unreadable "/credit" 1 None (Some 10) (State ∅ ∅ 0 [] []) =
    (Raise TimeoutException, State ∅ ∅ 60 [] [CGetDataset 11; CGetData 11]).
Proof.
  refine (proj1 (run_task_load_failure sample_world unreadable "/credit" 1 None (Some 10)
                   TimeoutException (State ∅ ∅ 0 [] [])) _).
  reflexivity.
Defined.



(** X12: when the fit returns within the deadline and the output directory
    exists, the file time.txt of that directory holds one line, the time
    the fit took (loading and imputing are not counted), and it still holds
    it when [run_task] ends, whether the recording and the re-evaluation
    that follow succeed or raise. *)
Theorem time_file_holds_the_fit_time
    (w : world) (t : task) (out_dir : string) (n_jobs : Z)
    (timeout task_timeout : option Z)
    (X : matrix) (categorical : list bool) (X' : matrix) (clf : fitted) (st : state) :
  get_data t = Ok (X, categorical) →
  fit_transform t (_conditional_imput X categorical) = Ok X' →
  clf_fit t (task_clf n_jobs timeout X') X' = Ok clf →
  within_deadline t task_timeout →
  dir_ok (dirs st) out_dir →
  files (run_task w t out_dir n_jobs timeout task_timeout st).2
    !! (out_dir +:+ "/time.txt") = Some (Text [ElapsedTimeLine (fit_time t)]).
Proof.
  intros Hdata Himp Hfit Hin Hdir.
  rewrite (run_task_fit_returns w t out_dir n_jobs timeout task_timeout
             X categorical X' clf) by done.
  unfold record_and_reevaluate.
  unfold mbind at 1. unfold M_bind at 1. unfold open_w, create_file.
  rewrite (parent_exists_child _ out_dir "time.txt") by done.
  unfold mbind at 1. unfold M_bind at 1. unfold file_write at 1. cbv zeta.
  set (s5 := State _ _ _ _ _).
  pose proof (confined_after_time_file w t clf out_dir (_conditional_imput X categorical) s5)
    as [_ _ _ Hfiles].
  rewrite Hfiles by apply time_file_is_time_file.
  subst s5. simpl. rewrite lookup_insert_eq. by rewrite lookup_insert_eq.
Qed.

Lemma time_file_holds_the_fit_time_witness :
  files (run_task sample_world iris "/iris" 1 None (Some 30) iris_dir_only).2
    !! "/iris/time.txt" = Some (Text [ElapsedTimeLine 20]).
Proof.
  refine (time_file_holds_the_fit_time sample_world iris "/iris" 1 None (Some 30)
            (Matrix 150 4) [false; false; true; false] (Matrix 150 4) sample_fitted
            iris_dir_only eq_refl eq_refl eq_refl _ _).
  - simpl. lia.
  - right. simpl. by apply elem_of_singleton.
Defined.

(** * The evaluation of one candidate *)



(** * More on the policy, the selector and the plot *)

(** X14: on datasets with non-negative counts the policy is monotone: a
    dataset with at least as many rows and at least as many columns never
    gets a larger sample fraction. *)
Theorem heuristic_sample_size_monotone (n m n' m' : Z) :
  0 ≤ n ≤ n' → 0 ≤ m ≤ m' →
  PrimFloat.leb (_heuristic_sample_size n' m') (_heuristic_sample_size n m) = true.
Proof.
  intros Hn Hm. assert (n * m ≤ n' * m') by nia.
  unfold _heuristic_sample_size; cbv zeta.
  repeat match goal with
         | |- context [?a <? ?b] => destruct (Z.ltb_spec a b)
         end; try reflexivity; lia.
Qed.

Lemma heuristic_sample_size_monotone_witness :
  PrimFloat.leb (_heuristic_sample_size 50000 50) (_heuristic_sample_size 1500 10) = true.
Proof.
  apply (heuristic_sample_size_monotone 1500 10 50000 50); lia.
Defined.

Lemma positions_where_partition (mask : list bool) :
  positions_where negb mask ++ positions_where id mask ≡ₚ seq 0 (length mask).
Proof.
  induction mask as [|b mask IH]; [done|].
  rewrite !positions_where_cons. simpl length.
  change (seq 0 (S (length mask))) with (0%nat :: seq 1 (length mask)).
  rewrite <-fmap_S_seq, <-IH, fmap_app.
  destruct b; simpl; [|done].
  by rewrite <-Permutation_middle.
Qed.

(** X15: the columns of the two transformers of the imputer, numerical ones
    first, are a rearrangement of all the columns of the mask: every column
    is imputed by exactly one of the two, and an empty mask gives two empty
    column lists. *)
Theorem conditional_imput_covers_each_column_once (X : matrix) (categorical : list bool) :
  transformed_columns (_conditional_imput X categorical)
    ≡ₚ seq 0 (length categorical) ∧
  NoDup (transformed_columns (_conditional_imput X categorical)) ∧
  length (transformed_columns (_conditional_imput X categorical)) = length categorical ∧
  transformers (_conditional_imput X []) =
    [ ("mean_imputer", {| imputer_strategy := Mean |}, []);
      ("median_imputer", {| imputer_strategy := Median |}, []) ].
Proof.
  assert (transformed_columns (_conditional_imput X categorical)
            ≡ₚ seq 0 (length categorical)) as Hp.
  { unfold transformed_columns, _conditional_imput. simpl.
    rewrite app_nil_r. apply positions_where_partition. }
  split; [done|]. split; [|split; [|done]].
  - rewrite Hp. apply NoDup_seq.
  - rewrite Hp. apply length_seq.
Qed.

(** X16: whatever the logbook holds, the first two lines of the figure are
    the training maximum and average, every line is drawn against the
    generation column, the axes are labelled Generation and Score, and the
    legend names every line that was drawn, in the order of drawing. *)
Theorem export_plot_always_draws_training (estimator : fitted) :
  let lb := fitted_logbook estimator in
  let ax := export_plot_axes estimator in
  take 2 (ax_lines ax) = training_lines lb ∧
  Forall (λ l, xdata l = lb_gen lb) (ax_lines ax) ∧
  xlabel ax = "Generation" ∧ ylabel ax = "Score" ∧
  ax_legend ax = map (λ l, (l, label l)) (ax_lines ax) ∧
  (length (ax_lines ax) = 2%nat ∨ ax_lines ax = training_lines lb ++ test_lines lb).
Proof.
  cbv zeta. unfold export_plot_axes, training_lines, test_lines; cbv zeta.
  destruct (np_all _ && np_all _); simpl;
    (split; [reflexivity|]); (split; [by repeat constructor|]);
    (split; [reflexivity|]); (split; [reflexivity|]); (split; [reflexivity|]);
    [by left|by right].
Qed.

(** * The files of the recorder *)

Ltac path_neq out_dir :=
  let H := fresh in
  intros H; apply (inj (String.append out_dir)) in H; discriminate H.

Lemma graph_path_inj (out_dir : string) (i j : nat) :
  graph_path out_dir i = graph_path out_dir j → i = j.
Proof.
  unfold graph_path. intros Heq.
  apply (inj (String.append out_dir)) in Heq.
  apply (inj (String.append "/graph")) in Heq.
  apply append_inj_r in Heq. by apply (inj pretty).
Qed.

Lemma fitness_one_run (out_dir : string) (i : nat) (ind : individual)
    (ls : list line) (st : state) :
  dir_ok (dirs st) out_dir →
  files st !! (out_dir +:+ "/ind-fitness.txt") = Some (Text ls) →
  fitness_one out_dir (i, ind) st =
    (Ok (), State (dirs st)
                  (<[graph_path out_dir i := GraphPng ind]>
                     (<[out_dir +:+ "/ind-fitness.txt" :=
                          Text (ls ++ [FitnessLine i (fitness_values ind)])]> (files st)))
                  (clock st) (stdout st) (calls st)).
Proof.
  intros Hd Hf. unfold fitness_one, create_graph, mbind, M_bind, file_write, create_file.
  rewrite Hf. simpl.
  change (out_dir +:+ "/graph" +:+ pretty i +:+ ".png")
    with (out_dir +:+ String "/" ("graph" +:+ pretty i +:+ ".png")).
  rewrite parent_exists_child; [done|done|].
  apply dirname_app_None; [done|].
  apply dirname_app_None; [apply dirname_pretty_nat|done].
Qed.

Lemma fitness_loop (out_dir : string) (l : list individual) (k : nat)
    (ls : list line) (st : state) :
  dir_ok (dirs st) out_dir →
  files st !! (out_dir +:+ "/ind-fitness.txt") = Some (Text ls) →
  ∃ fs,
    for_each (imap (λ j ind, ((k + j)%nat, ind)) l) (fitness_one out_dir) st =
      (Ok (), State (dirs st) fs (clock st) (stdout st) (calls st)) ∧
    fs !! (out_dir +:+ "/ind-fitness.txt") = Some (Text (ls ++ fitness_lines k l)) ∧
    (∀ j ind, l !! j = Some ind →
       fs !! graph_path out_dir (k + j) = Some (GraphPng ind)) ∧
    (∀ q, q ≠ out_dir +:+ "/ind-fitness.txt" →
          (∀ j, (j < length l)%nat → q ≠ graph_path out_dir (k + j)) →
          fs !! q = files st !! q).
Proof.
  revert k ls st. induction l as [|x l IH]; intros k ls st Hd Hf.
  { exists (files st). split; [by destruct st|]. unfold fitness_lines. simpl.
    rewrite app_nil_r. done. }
  rewrite imap_cons, for_each_cons, (fitness_one_run _ _ _ ls) by done.
  rewrite (imap_ext _ (λ j ind, ((S k + j)%nat, ind)))
    by (intros; simpl; f_equal; lia).
  set (st1 := State _ _ _ _ _).
  assert (graph_path out_dir (k + 0) ≠ out_dir +:+ "/ind-fitness.txt") as Hne.
  { unfold graph_path. path_neq out_dir. }
  destruct (IH (S k) (ls ++ [FitnessLine (k + 0) (fitness_values x)]) st1 Hd)
    as (fs & E & Hfit & Hgraph & Hout).
  { simpl. rewrite lookup_insert_ne by done. by rewrite lookup_insert_eq. }
  exists fs. split; [exact E|]. split; [|split].
  - rewrite Hfit. f_equal. unfold fitness_lines. rewrite imap_cons.
    rewrite <-(assoc_L (++)). simpl. do 3 f_equal.
    apply imap_ext. intros; simpl. f_equal. lia.
  - intros [|j] ind Hl; simplify_eq/=.
    + rewrite Hout.
      * by rewrite lookup_insert_eq.
      * done.
      * intros j _ Heq%graph_path_inj. lia.
    + replace (k + S j)%nat with (S k + j)%nat by lia. by apply Hgraph.
  - intros q Hq Hqs. rewrite Hout.
    + simpl. rewrite !lookup_insert_ne; [done|done|].
      apply not_eq_sym, (Hqs 0%nat). simpl. lia.
    + done.
    + intros j Hj. replace (S k + j)%nat with (k + S j)%nat by lia.
      apply Hqs. simpl. lia.
Qed.

Lemma log_evolution_run (w : world) (clf : fitted) (out_dir : string) (st : state) :
  dir_ok (dirs st) out_dir →
  ∃ fs,
    _log_evolution w clf out_dir st =
      (Ok (), State (dirs st) fs (clock st) (stdout st) (calls st)) ∧
    fs !! (out_dir +:+ "/logbook.txt") =
      Some (Text [LogbookLine (lb_str (fitted_logbook clf))]) ∧
    fs !! (out_dir +:+ "/result.png") = Some (Png (export_plot_axes clf)) ∧
    fs !! (out_dir +:+ "/ind-fitness.txt") =
      Some (Text (fitness_lines 0 (take 5 (ranked clf)))) ∧
    (∀ i ind, (i < 5)%nat → ranked clf !! i = Some ind →
       fs !! graph_path out_dir i = Some (GraphPng ind)) ∧
    (∀ q, ¬ log_path out_dir q → (∀ i, q ≠ pickle_path out_dir i) →
       fs !! q = files st !! q).
Proof.
  intros Hd.
  set (st4 := State (dirs st)
                (<[out_dir +:+ "/ind-fitness.txt" := Text []]>
                   (<[out_dir +:+ "/result.png" := Png (export_plot_axes clf)]>
                      (<[out_dir +:+ "/logbook.txt" :=
                           Text [LogbookLine (lb_str (fitted_logbook clf))]]>
                         (<[out_dir +:+ "/logbook.txt" := Text []]> (files st)))))
                (clock st) (stdout st) (calls st)).
  assert (files st4 !! (out_dir +:+ "/ind-fitness.txt") = Some (Text [])) as Hfit4
    by (subst st4; simpl; by rewrite lookup_insert_eq).
  destruct (fitness_loop out_dir (take 5 (ranked clf)) 0 [] st4 Hd Hfit4)
    as (fs5 & E5 & Hfit & Hgraph & Hout5).
  set (st5 := State (dirs st) fs5 (clock st) (stdout st) (calls st)).
  destruct (pickle_loop w out_dir (take 5 (get_best_pipelines clf)) 0 st5 Hd)
    as (fs & E & _ & Hout).
  exists fs.
  assert (∀ q i, log_path out_dir q → q ≠ pickle_path out_dir i) as Hlp.
  { intros q i Hq ->. by apply (pickle_path_not_log_path out_dir i). }
  split; [|split; [|split; [|split; [|split]]]].
  - unfold _log_evolution, open_w, export_plot.
    unfold mbind at 1 2 3 4 5. unfold M_bind at 1 2 3 4 5.
    unfold create_file at 1.
    rewrite (parent_exists_child _ out_dir "logbook.txt") by done.
    unfold file_write at 1. cbv zeta.
    unfold create_file at 1. simpl dirs.
    rewrite (parent_exists_child _ out_dir "result.png") by done.
    unfold create_file at 1. simpl dirs.
    rewrite (parent_exists_child _ out_dir "ind-fitness.txt") by done.
    simpl. rewrite lookup_insert_eq. simpl. fold st4.
    assert (for_each (enumerate (take 5 (get_best_individuals clf)))
              (λ '(i, ind),
                 file_write (out_dir +:+ "/ind-fitness.txt")
                            (FitnessLine i (fitness_values ind)) ;;
                 create_graph ind (out_dir +:+ "/graph" +:+ pretty i +:+ ".png")) st4
            = (Ok (), st5)) as -> by exact E5.
    exact E.
  - rewrite Hout by (intros j _; apply Hlp; by left).
    rewrite Hout5; [|path_neq out_dir|intros j _; unfold graph_path; path_neq out_dir].
    subst st4; simpl.
    rewrite lookup_insert_ne by path_neq out_dir.
    rewrite lookup_insert_ne by path_neq out_dir.
    by rewrite lookup_insert_eq.
  - rewrite Hout by (intros j _; apply Hlp; right; by left).
    rewrite Hout5; [|path_neq out_dir|intros j _; unfold graph_path; path_neq out_dir].
    subst st4; simpl.
    rewrite lookup_insert_ne by path_neq out_dir.
    by rewrite lookup_insert_eq.
  - rewrite Hout by (intros j _; apply Hlp; do 2 right; by left).
    exact Hfit.
  - intros i ind Hi Hl.
    rewrite Hout by (intros j _; apply Hlp; do 3 right; by exists i).
    apply (Hgraph i). by rewrite lookup_take_lt.
  - intros q Hq Hnp. rewrite Hout by (intros j _; apply Hnp).
    change (files st5 !! q) with (fs5 !! q). rewrite Hout5.
    + subst st4; simpl.
      rewrite !lookup_insert_ne; [done|..]; intros <-; apply Hq; unfold log_path; auto.
    + intros ->. apply Hq. unfold log_path. auto.
    + intros j _ ->. apply Hq. do 3 right. by exists (0 + j)%nat.
Qed.

(** X17: when the output directory exists [_log_evolution] returns, and
    afterwards logbook.txt holds the text of the logbook as its only line,
    result.png the figure of [export_plot], ind-fitness.txt one line per
    individual of the first five ranks, in rank order and numbered from 0,
    and graph{i}.png the diagram of the individual of rank i; apart from
    these files and the pickles no file has changed, and no directory
    has. *)
Theorem log_evolution_files
    (w : world) (clf : fitted) (out_dir : string) (st : state) :
  dir_ok (dirs st) out_dir →
  let r := _log_evolution w clf out_dir st in
  r.1 = Ok () ∧ dirs r.2 = dirs st ∧
  files r.2 !! (out_dir +:+ "/logbook.txt") =
    Some (Text [LogbookLine (lb_str (fitted_logbook clf))]) ∧
  files r.2 !! (out_dir +:+ "/result.png") = Some (Png (export_plot_axes clf)) ∧
  files r.2 !! (out_dir +:+ "/ind-fitness.txt") =
    Some (Text (fitness_lines 0 (take 5 (ranked clf)))) ∧
  (∀ i ind, (i < 5)%nat → ranked clf !! i = Some ind →
     files r.2 !! graph_path out_dir i = Some (GraphPng ind)) ∧
  (∀ q, ¬ log_path out_dir q → (∀ i, q ≠ pickle_path out_dir i) →
     files r.2 !! q = files st !! q).
Proof.
  intros Hd. cbv zeta.
  destruct (log_evolution_run w clf out_dir st Hd) as (fs & -> & H1 & H2 & H3 & H4 & H5).
  simpl. by repeat split.
Qed.

Lemma log_evolution_files_witness :
  let r := _log_evolution sample_world sample_fitted "/iris" iris_dir_only in
  r.1 = Ok () ∧ dirs r.2 = dirs iris_dir_only ∧
  files r.2 !! "/iris/logbook.txt" = Some (Text [LogbookLine "gen"]) ∧
  files r.2 !! "/iris/result.png" = Some (Png (export_plot_axes sample_fitted)) ∧
  files r.2 !! "/iris/ind-fitness.txt" =
    Some (Text [FitnessLine 0 [0.75%float]; FitnessLine 1 [0.75%float]]) ∧
  (∀ i ind, (i < 5)%nat → ranked sample_fitted !! i = Some ind →
     files r.2 !! graph_path "/iris" i = Some (GraphPng ind)) ∧
  (∀ q, ¬ log_path "/iris" q → (∀ i, q ≠ pickle_path "/iris" i) →
     files r.2 !! q = files iris_dir_only !! q).
Proof.
  refine (log_evolution_files sample_world sample_fitted "/iris" iris_dir_only _).
  right. simpl. by apply elem_of_singleton.
Defined.

(** * The re-evaluation of the ranked candidates *)










(** * One directory per dataset *)

(** X19: the directory check goes by the name of the dataset, not by the
    task: once the loop has processed a task and returned, any task on a
    dataset of the same name, under whatever identifier, is only fetched
    and its collision printed; its data is not loaded and no fit is
    started. *)
Theorem same_dataset_is_processed_once
    (w : world) (task_ids : option (list Z)) (out_dir : string)
    (n_jobs : Z) (timeout task_timeout : option Z) (tid tid' : Z) (st st1 : state) :
  not_skipped task_ids tid → not_skipped task_ids tid' →
  dataset_name (get_task w tid') = dataset_name (get_task w tid) →
  run_tests_task w task_ids out_dir n_jobs timeout task_timeout tid st = (Ok (), st1) →
  ∀ (st2 : state) (out_dir2 : string) (n_jobs2 : Z) (timeout2 task_timeout2 : option Z),
    grows st1 st2 →
    run_tests_task w task_ids out_dir2 n_jobs2 timeout2 task_timeout2 tid' st2 =
      (Ok (), State (dirs st2) (files st2) (clock st2)
                    (stdout st2 ++ [collision_message ("/" +:+ dataset_name (get_task w tid))])
                    (calls st2 ++ [CGetTask tid';
                                   CGetDataset (task_id (get_task w tid'))])).
Proof.
  intros Hsel Hsel' Hname Hrun st2 out_dir2 n_jobs2 timeout2 task_timeout2 Hg.
  apply run_tests_task_leaves_dir in Hrun; [|done].
  rewrite run_tests_task_collision_path; [|done|].
  - unfold collisions, fetches, dataset_dir. simpl. by rewrite Hname.
  - unfold dataset_dir in *. rewrite Hname. by eapply grows_path_exists.
Qed.

Lemma same_dataset_is_processed_once_witness :
  run_tests_task iris_only_world None "" 1 None None 2
    (run_tests_task iris_only_world None "" 1 None None 1 (State ∅ ∅ 0 [] [])).2 =
    (Ok (),
     State (dirs (run_tests_task iris_only_world None "" 1 None None 1 (State ∅ ∅ 0 [] [])).2)
           (files (run_tests_task iris_only_world None "" 1 None None 1 (State ∅ ∅ 0 [] [])).2)
           (clock (run_tests_task iris_only_world None "" 1 None None 1 (State ∅ ∅ 0 [] [])).2)
           (stdout (run_tests_task iris_only_world None "" 1 None None 1 (State ∅ ∅ 0 [] [])).2
              ++ [collision_message "/iris"])
           (calls (run_tests_task iris_only_world None "" 1 None None 1 (State ∅ ∅ 0 [] [])).2
              ++ [CGetTask 2; CGetDataset 2])).
Proof.
  refine (same_dataset_is_processed_once iris_only_world None "" 1 None None 1 2
            (State ∅ ∅ 0 [] [])
            (run_tests_task iris_only_world None "" 1 None None 1 (State ∅ ∅ 0 [] [])).2
            I I eq_refl _
            (run_tests_task iris_only_world None "" 1 None None 1 (State ∅ ∅ 0 [] [])).2
            "" 1 None None _).
  - vm_compute. reflexivity.
  - reflexivity.
Defined.
